(** * A model of [script.js], the page script of the voice detector front end

    The script wires a file input, a waveform player and a simulated analysis
    whose result is a fixed object shown after a delay.  It runs on the
    browser's single-threaded event loop, so the model is a page state, the
    handlers as functions on that state, and an executable step function over
    the events the page can receive (user actions, elapsing time, a timer
    becoming due, the File Reader or the waveform renderer completing).

    Conventions.
    - JavaScript numbers are modelled by exact rationals.  The accumulator of
      the count-up runs over multiples of 0.5, which binary64 represents
      exactly below 2^52 and no longer separates from 2^52 on: [plus_half]
      writes that out.  Comparisons of such values with a target are exact.
    - Strings are Stdlib strings; an element's [innerText]/[innerHTML] is the
      text it displays.
    - A timer holds the time that remains until it is due; [Elapse] lets time
      pass (timers may run late, never early).
    - The analyze trigger is a button: while it is disabled the browser
      delivers no click to it. *)

From Stdlib Require Import ZArith QArith Qround Qreduction Qabs.
From Stdlib Require Import List String Ascii Bool Arith Lia.
From Stdlib Require Import DecimalString DecimalN.
From Stdlib Require Qcanon.
Import ListNotations.
Local Close Scope Q_scope.
Local Open Scope string_scope.

(** ** Numbers and their renderings *)

(** From 2^52 on, binary64 has no half-integers: adding 0.5 rounds back. *)
Definition exact_limit : Q := inject_Z (2 ^ 52).

(** [count += 0.5] *)
Definition plus_half (count : Q) : Q :=
  if Qle_bool exact_limit count then count else Qred (count + 0.5)%Q.

Definition N_digits (n : N) : string := NilEmpty.string_of_uint (N.to_uint n).

(** [x.toFixed(1)]: the integer [n] with [n / 10] nearest to [x] (the larger one
    on a tie), printed with one digit after the point. *)
Definition toFixed1 (x : Q) : string :=
  let n := Qfloor (Qabs x * 10 + 0.5)%Q in
  (if (Qnum x <? 0)%Z then "-" else "")
    ++ N_digits (Z.to_N (n / 10)) ++ "." ++ N_digits (Z.to_N (n mod 10)).

Definition digit_char (d : Z) : ascii := ascii_of_nat (48 + Z.to_nat d).

(** The digits of [r / d] after the point, for [0 <= r < d]. *)
Fixpoint fraction_digits (fuel : nat) (r d : Z) : string :=
  match fuel with
  | O => ""
  | S fuel' =>
      if (r =? 0)%Z then ""
      else String (digit_char ((10 * r) / d)) (fraction_digits fuel' ((10 * r) mod d) d)
  end.

(** Number to string, for the numbers whose shortest decimal form is the
    rational itself: whole numbers and decimals of magnitude from 1e-6 to
    1e21 with at most 17 digits after the point.  Smaller and larger numbers
    are printed by the engine with an exponent, and longer fractions are cut
    here: both are outside this model. *)
Definition number_to_string (x : Q) : string :=
  let d := Zpos (Qden x) in
  let a := Z.abs (Qnum x) in
  (if (Qnum x <? 0)%Z then "-" else "")
    ++ N_digits (Z.to_N (a / d))
    ++ (if (a mod d =? 0)%Z then "" else "." ++ fraction_digits 17 (a mod d) d).

(** What a script assigns to [innerText]: a number or a string. *)
Inductive jsval : Type :=
| JNum (x : Q)
| JStr (s : string).

Definition js_to_string (v : jsval) : string :=
  match v with
  | JNum x => number_to_string x
  | JStr s => s
  end.

Fixpoint split_point (s : string) : string * option string :=
  match s with
  | "" => ("", None)
  | String c rest =>
      if Ascii.eqb c "." then ("", Some rest)
      else let '(whole, frac) := split_point rest in (String c whole, frac)
  end.

Definition read_digits (s : string) : option N :=
  option_map N.of_uint (NilEmpty.uint_of_string s).

(** The value of an unsigned decimal numeral [whole] or [whole.frac]. *)
Definition read_unsigned (s : string) : option Q :=
  let '(whole, frac) := split_point s in
  match read_digits whole, frac with
  | Some w, None => Some (inject_Z (Z.of_N w))
  | Some w, Some f =>
      match read_digits f with
      | Some n =>
          Some (Qred (inject_Z (Z.of_N w)
                      + inject_Z (Z.of_N n) / inject_Z (10 ^ Z.of_nat (String.length f)))%Q)
      | None => None
      end
  | None, _ => None
  end.

Definition read_number (s : string) : option Q :=
  match s with
  | String "-" rest => option_map Qopp (read_unsigned rest)
  | _ => read_unsigned s
  end.

(** The number a displayed value stands for. *)
Definition to_number (v : jsval) : option Q :=
  match v with
  | JNum x => Some x
  | JStr s => read_number s
  end.

(** ** The count-up animation, [animateScore] *)

(** One run of the interval callback: the new [count], the values assigned to
    [element.innerText] in order, and whether [clearInterval] was called. *)
Definition interval_callback (target count : Q) : Q * list jsval * bool :=
  let count := plus_half count in
  let shown := JStr (toFixed1 count) in
  if Qle_bool target count
  then (count, [shown; JNum target], true)
  else (count, [shown], false).

(** The closure variable, the element's last assigned value, the timer. *)
Record animation : Type := mkAnimation {
  count : Q;
  content : jsval;
  cleared : bool
}.

Definition tick (target : Q) (a : animation) : animation :=
  let '(c, writes, stop) := interval_callback target (count a) in
  {| count := c; content := last writes (content a); cleared := stop |}.

(** The animation after [n] periods of the interval; a cleared interval no
    longer runs. *)
Fixpoint after_ticks (target : Q) (n : nat) (a : animation) : animation :=
  match n with
  | O => a
  | S n' =>
      let a' := after_ticks target n' a in
      if cleared a' then a' else tick target a'
  end.

(** [let count = 0] with the element as it stands. *)
Definition animation_start (shown : string) : animation :=
  {| count := 0%Q; content := JStr shown; cleared := false |}.

(** max(1, ceil(S / 0.5)) *)
Definition stop_tick (target : Q) : nat :=
  Z.to_nat (Z.max 1 (Qceiling (target / 0.5)%Q)).

Definition halves (k : nat) : Q := Qred (Z.of_nat k # 2).

(** ** The typewriter, [typeWriter] *)

Definition charAt (text : string) (i : nat) : string :=
  match String.get i text with
  | Some c => String c ""
  | None => ""
  end.

(** One invocation on the element's text: the new text and, when the call
    re-arms itself, the index of the next call.  [innerHTML += c] is taken as
    appending the character to the displayed text, which is what the browser
    does for text of printable ASCII characters ([printable]); a carriage
    return, a NUL or a character outside ASCII is outside this model, since the
    setter parses its argument as HTML and the script steps through UTF-16
    units. *)
Definition typeWriter_call (text : string) (i : nat) (html : string)
  : string * option nat :=
  let html := if Nat.eqb i 0 then "" else html in
  if Nat.ltb i (String.length text)
  then (html ++ charAt text i, Some (i + 1))
  else (html, None).

(** ** The page *)

(** A selected file: its name, its MIME type and its bytes in base64. *)
Record file : Type := mkFile {
  name : string;
  type : string;
  base64 : string
}.

(** The elements whose text the script writes, by their ids. *)
Inductive elem : Type :=
| file_name
| classification_label
| language_badge
| score_value
| explanation_text
| analyze_btn
| play_btn.

Record texts : Type := mkTexts {
  t_file_name : string;
  t_classification_label : string;
  t_language_badge : string;
  t_score_value : string;
  t_explanation_text : string;
  t_analyze_btn : string;
  t_play_btn : string
}.

Definition text_of (e : elem) (t : texts) : string :=
  match e with
  | file_name => t_file_name t
  | classification_label => t_classification_label t
  | language_badge => t_language_badge t
  | score_value => t_score_value t
  | explanation_text => t_explanation_text t
  | analyze_btn => t_analyze_btn t
  | play_btn => t_play_btn t
  end.

Definition with_text (e : elem) (s : string) (t : texts) : texts :=
  match t with
  | mkTexts a b c d f g h =>
      match e with
      | file_name => mkTexts s b c d f g h
      | classification_label => mkTexts a s c d f g h
      | language_badge => mkTexts a b s d f g h
      | score_value => mkTexts a b c s f g h
      | explanation_text => mkTexts a b c d s g h
      | analyze_btn => mkTexts a b c d f s h
      | play_btn => mkTexts a b c d f g s
      end
  end.

Inductive surface : Type :=
| playback_container
| results_display.

(** A deferred callback with the variables its closure holds. *)
Inductive task : Type :=
| AnalysisDone (scanLine : nat)
| ScoreTick (element : elem) (target count : Q)
| TypeStep (element : elem) (text : string) (i : nat).

Record timer : Type := mkTimer {
  remaining : nat;
  job : task
}.

Record page : Type := mkPage {
  (* the DOM surface *)
  playback_hidden : bool;
  results_hidden : bool;
  analyze_disabled : bool;
  label_color : string;
  dom_text : texts;
  scan_lines : list nat;
  next_node : nat;
  scrolled : list surface;
  (* the waveform renderer *)
  loading : list file;
  ready : list file;
  playing : bool;
  (* window and console *)
  audioBase64 : option string;
  console : list string;
  (* the event loop *)
  readers : list file;
  timers : list timer
}.

Definition set_playback_hidden (v : bool) (p : page) : page :=
  match p with
  | mkPage _ b c d e f g h i j k l m n o => mkPage v b c d e f g h i j k l m n o
  end.
Definition set_results_hidden (v : bool) (p : page) : page :=
  match p with
  | mkPage a _ c d e f g h i j k l m n o => mkPage a v c d e f g h i j k l m n o
  end.
Definition set_analyze_disabled (v : bool) (p : page) : page :=
  match p with
  | mkPage a b _ d e f g h i j k l m n o => mkPage a b v d e f g h i j k l m n o
  end.
Definition set_label_color (v : string) (p : page) : page :=
  match p with
  | mkPage a b c _ e f g h i j k l m n o => mkPage a b c v e f g h i j k l m n o
  end.
Definition set_texts (v : texts) (p : page) : page :=
  match p with
  | mkPage a b c d _ f g h i j k l m n o => mkPage a b c d v f g h i j k l m n o
  end.
Definition set_scan_lines (v : list nat) (p : page) : page :=
  match p with
  | mkPage a b c d e _ g h i j k l m n o => mkPage a b c d e v g h i j k l m n o
  end.
Definition set_next_node (v : nat) (p : page) : page :=
  match p with
  | mkPage a b c d e f _ h i j k l m n o => mkPage a b c d e f v h i j k l m n o
  end.
Definition set_scrolled (v : list surface) (p : page) : page :=
  match p with
  | mkPage a b c d e f g _ i j k l m n o => mkPage a b c d e f g v i j k l m n o
  end.
Definition set_loading (v : list file) (p : page) : page :=
  match p with
  | mkPage a b c d e f g h _ j k l m n o => mkPage a b c d e f g h v j k l m n o
  end.
Definition set_ready (v : list file) (p : page) : page :=
  match p with
  | mkPage a b c d e f g h i _ k l m n o => mkPage a b c d e f g h i v k l m n o
  end.
Definition set_playing (v : bool) (p : page) : page :=
  match p with
  | mkPage a b c d e f g h i j _ l m n o => mkPage a b c d e f g h i j v l m n o
  end.
Definition set_audioBase64 (v : option string) (p : page) : page :=
  match p with
  | mkPage a b c d e f g h i j k _ m n o => mkPage a b c d e f g h i j k v m n o
  end.
Definition set_console (v : list string) (p : page) : page :=
  match p with
  | mkPage a b c d e f g h i j k l _ n o => mkPage a b c d e f g h i j k l v n o
  end.
Definition set_readers (v : list file) (p : page) : page :=
  match p with
  | mkPage a b c d e f g h i j k l m _ o => mkPage a b c d e f g h i j k l m v o
  end.
Definition set_timers (v : list timer) (p : page) : page :=
  match p with
  | mkPage a b c d e f g h i j k l m n _ => mkPage a b c d e f g h i j k l m n v
  end.

Definition innerText (e : elem) (p : page) : string := text_of e (dom_text p).

Definition set_innerText (e : elem) (v : jsval) (p : page) : page :=
  set_texts (with_text e (js_to_string v) (dom_text p)) p.

Definition scrollIntoView (s : surface) (p : page) : page :=
  set_scrolled (scrolled p ++ [s]) p.

(** [setTimeout]/[setInterval]: the callback joins the pending timers. *)
Definition set_timer (delay : nat) (j : task) (p : page) : page :=
  set_timers (timers p ++ [mkTimer delay j]) p.

(** ** File handling *)

(** [s.split(sep)] for a one-character separator. *)
Fixpoint split (sep : ascii) (s : string) : list string :=
  match s with
  | "" => [""]
  | String c rest =>
      if Ascii.eqb c sep then "" :: split sep rest
      else match split sep rest with
           | piece :: pieces => String c piece :: pieces
           | [] => [String c ""]
           end
  end.

(** Modelled from the spec: the File Reader is an external collaborator that
    converts the file to a data URL, asynchronously, and signals completion
    once; this is the data URL of a successful read. *)
Definition data_url (f : file) : string :=
  "data:" ++ type f ++ ";base64," ++ base64 f.

(** [reader.onloadend]; [result] is [None] for the null of a failed read, on
    which [split] throws and the handler ends there. *)
Definition reader_onloadend (result : option string) (p : page) : page :=
  match result with
  | None => p
  | Some url =>
      let p := set_audioBase64 (nth_error (split "," url) 1) p in
      set_console
        (console p ++ ["Audio encoded to Base64. Ready for API submission."]) p
  end.

Definition handleAudioUpload (f : file) (p : page) : page :=
  (* Show the playback UI *)
  let p := set_playback_hidden false p in
  let p := set_innerText file_name (JStr (name f)) p in
  (* Load waveform *)
  let p := set_loading (loading p ++ [f]) p in
  (* Convert to Base64 *)
  let p := set_readers (readers p ++ [f]) p in
  (* Smooth scroll to playback *)
  scrollIntoView playback_container p.

(** [audioInput.onchange]: [files[0]], if there is one. *)
Definition audioInput_onchange (files : list file) (p : page) : page :=
  match files with
  | f :: _ => handleAudioUpload f p
  | [] => p
  end.

(** ** Playback control *)

Definition quote : string := String (ascii_of_nat 34) "".

Definition pause_html : string :=
  "<span class=" ++ quote ++ "pause-icon" ++ quote ++ ">||</span> Pause".
Definition play_html : string :=
  "<span class=" ++ quote ++ "play-icon" ++ quote ++ ">▶</span> Play".

(** Modelled from the spec: the Waveform Renderer is an external collaborator;
    [playPause] toggles its play/pause state and [isPlaying], read immediately
    after, reflects the new state.  What the renderer does on its own (playback
    reaching the end, a new load, no audio loaded) is not modelled. *)
Definition playBtn_onclick (p : page) : page :=
  let p := set_playing (negb (playing p)) p in
  set_innerText play_btn (JStr (if playing p then pause_html else play_html)) p.

(** ** Results presentation *)

Record response : Type := mkResponse {
  lang : string;
  score : Q;
  isAI : bool;
  details : string
}.

Definition mockResponse : response :=
  {| lang := "Telugu";
     score := 97.8%Q;
     isAI := true;
     details := "Neural vocoder artifacts detected. Spectral flux distribution is too consistent for human vocal cords. Lack of physiological micro-jitters in the 4kHz range." |}.

(** [animateScore], with the value of its unused local [speed] as a parameter. *)
Definition animateScore_with (speed : Q) (element : elem) (target : Q) (p : page)
  : page :=
  let count := 0%Q in
  set_timer 10 (ScoreTick element target count) p.

Definition animateScore (element : elem) (target : Q) (p : page) : page :=
  animateScore_with (2000 / target)%Q element target p.

Definition typeWriter (element : elem) (txt : string) (i : nat) (p : page) : page :=
  let '(html, next) := typeWriter_call txt i (innerText element p) in
  let p := set_innerText element (JStr html) p in
  match next with
  | Some j => set_timer 20 (TypeStep element txt j) p
  | None => p
  end.

Definition label_of (isAI : bool) : string :=
  if isAI then "AI-GENERATED VOICE" else "HUMAN VOICE DETECTED".
Definition color_of (isAI : bool) : string :=
  if isAI then "#fb7185" else "#34d399".

(** The body of [displayResults] for a given response object. *)
Definition displayResults_of (r : response) (p : page) : page :=
  let p := set_results_hidden false p in
  (* Apply dynamic styles based on result *)
  let p := set_innerText classification_label (JStr (label_of (isAI r))) p in
  let p := set_label_color (color_of (isAI r)) p in
  let p := set_innerText language_badge (JStr (lang r ++ " Detected")) p in
  (* Animate the score counting up *)
  let p := animateScore score_value (score r) p in
  (* Typewriter effect for the terminal breakdown *)
  let p := typeWriter explanation_text ("> [SYSTEM_REPORT]: " ++ details r) 0 p in
  scrollIntoView results_display p.

Definition displayResults (p : page) : page := displayResults_of mockResponse p.

(** ** The simulated analysis *)

Definition busy_html : string :=
  "<span class=" ++ quote ++ "loader" ++ quote ++ "></span> Analyzing Audio...".

Definition analyzeBtn_onclick (p : page) : page :=
  (* Visual state: Scanning *)
  let p := set_analyze_disabled true p in
  let p := set_innerText analyze_btn (JStr busy_html) p in
  (* Inject the scan line *)
  let scanLine := next_node p in
  let p := set_next_node (S scanLine) p in
  let p := set_scan_lines (scan_lines p ++ [scanLine]) p in
  (* Simulate AI thinking time *)
  set_timer 3000 (AnalysisDone scanLine) p.

Definition remove_node (n : nat) (nodes : list nat) : list nat :=
  filter (fun m => negb (Nat.eqb m n)) nodes.

(** The callbacks of the pending timers. *)
Definition run_task (j : task) (p : page) : page :=
  match j with
  | AnalysisDone scanLine =>
      let p := set_scan_lines (remove_node scanLine (scan_lines p)) p in
      let p := displayResults p in
      let p := set_analyze_disabled false p in
      set_innerText analyze_btn (JStr "Verify Authenticity") p
  | ScoreTick element target count =>
      let '(count, writes, stop) := interval_callback target count in
      let p := fold_left (fun p v => set_innerText element v p) writes p in
      if stop then p else set_timer 10 (ScoreTick element target count) p
  | TypeStep element txt i => typeWriter element txt i p
  end.

(** ** The event loop *)

(** What can happen to the page: the user selects files, clicks the drop zone
    (which opens the file picker), the play button or the analyze trigger;
    time passes; the [n]-th pending timer runs.
    Modelled from the spec: the File Reader and the Waveform Renderer are
    external collaborators that complete on their own, each signalling once,
    in no fixed order: [LoadEnd] is the end of the [n]-th pending read with
    its result, [Decoded] the readiness of the [n]-th pending waveform. *)
Inductive event : Type :=
| ChangeFiles (files : list file)
| ClickDropZone
| ClickPlay
| ClickAnalyze
| Elapse (ms : nat)
| Fire (n : nat)
| LoadEnd (n : nat) (result : option string)
| Decoded (n : nat).

Fixpoint remove_nth {A : Type} (n : nat) (l : list A) : list A :=
  match n, l with
  | _, [] => []
  | O, _ :: rest => rest
  | S n', x :: rest => x :: remove_nth n' rest
  end.

Definition elapse (ms : nat) (p : page) : page :=
  set_timers (map (fun t => mkTimer (remaining t - ms) (job t)) (timers p)) p.

(** One turn of the event loop, [None] when the event cannot happen: a
    disabled button takes no click, a timer does not run before it is due. *)
Definition step (p : page) (e : event) : option page :=
  match e with
  | ChangeFiles files => Some (audioInput_onchange files p)
  | ClickDropZone => Some p
  | ClickPlay => Some (playBtn_onclick p)
  | ClickAnalyze =>
      if analyze_disabled p then None else Some (analyzeBtn_onclick p)
  | Elapse ms => Some (elapse ms p)
  | Fire n =>
      match nth_error (timers p) n with
      | Some t =>
          if Nat.eqb (remaining t) 0
          then Some (run_task (job t) (set_timers (remove_nth n (timers p)) p))
          else None
      | None => None
      end
  | LoadEnd n result =>
      match nth_error (readers p) n with
      | Some _ =>
          Some (reader_onloadend result (set_readers (remove_nth n (readers p)) p))
      | None => None
      end
  | Decoded n =>
      match nth_error (loading p) n with
      | Some f =>
          Some (set_ready (ready p ++ [f]) (set_loading (remove_nth n (loading p)) p))
      | None => None
      end
  end.

Fixpoint run (evs : list event) (p : page) : option page :=
  match evs with
  | [] => Some p
  | e :: rest =>
      match step p e with
      | Some p' => run rest p'
      | None => None
      end
  end.

(** Whether [e], taken in [p], is the completion of an analysis. *)
Definition completes (p : page) (e : event) : bool :=
  match e with
  | Fire n =>
      match nth_error (timers p) n with
      | Some (mkTimer _ (AnalysisDone _)) => true
      | _ => false
      end
  | _ => false
  end.

Definition activates (e : event) : bool :=
  match e with
  | ClickAnalyze => true
  | _ => false
  end.

Definition uploads (e : event) : bool :=
  match e with
  | ChangeFiles (_ :: _) => true
  | _ => false
  end.

(** The completions of analysis along an execution. *)
Fixpoint completions (evs : list event) (p : page) : nat :=
  match evs with
  | [] => 0
  | e :: rest =>
      match step p e with
      | Some p' => (if completes p e then 1 else 0) + completions rest p'
      | None => 0
      end
  end.

Fixpoint elapsed (evs : list event) : nat :=
  match evs with
  | [] => 0
  | Elapse ms :: rest => ms + elapsed rest
  | _ :: rest => elapsed rest
  end.

(** The punctual schedule: time passes until the first timer is due, and
    that timer (the earliest set among those due) runs. *)
Definition soonest (ts : list timer) : option nat :=
  match ts with
  | [] => None
  | t :: rest => Some (fold_left Nat.min (map remaining rest) (remaining t))
  end.

Fixpoint first_due (ts : list timer) : nat :=
  match ts with
  | [] => 0
  | t :: rest => if Nat.eqb (remaining t) 0 then 0 else S (first_due rest)
  end.

Definition next_events (p : page) : list event :=
  match soonest (timers p) with
  | None => []
  | Some ms => [Elapse ms; Fire (first_due (timers (elapse ms p)))]
  end.

Fixpoint schedule (fuel : nat) (p : page) : list event :=
  match fuel with
  | O => []
  | S fuel' =>
      match next_events p with
      | [] => []
      | evs =>
          match run evs p with
          | Some p' => evs ++ schedule fuel' p'
          | None => []
          end
      end
  end.

(** The page after [k] turns of the punctual schedule.  With a single
    self-re-arming timer pending, a turn is one period of that timer; with no
    timer pending nothing happens. *)
Fixpoint after_periods (k : nat) (p : page) : option page :=
  match k with
  | O => Some p
  | S k' =>
      match after_periods k' p with
      | Some q => run (next_events q) q
      | None => None
      end
  end.

(** ** The page as loaded *)

(** Modelled from the spec: the markup of the page is not part of the script.
    A page as loaded shows neither the playback nor the results surface, its
    analyze trigger is enabled, and nothing is pending. *)
Definition loaded (p : page) : Prop :=
  playback_hidden p = true /\ results_hidden p = true
  /\ analyze_disabled p = false /\ scan_lines p = []
  /\ loading p = [] /\ ready p = [] /\ playing p = false
  /\ audioBase64 p = None /\ readers p = [] /\ timers p = [].

Definition initial_page : page :=
  {| playback_hidden := true; results_hidden := true; analyze_disabled := false;
     label_color := "";
     dom_text := mkTexts "" "" "" "0" "" "Verify Authenticity" play_html;
     scan_lines := []; next_node := 0; scrolled := [];
     loading := []; ready := []; playing := false;
     audioBase64 := None; console := [];
     readers := []; timers := [] |}.

(** ** Notions used in the statements *)

(** A string of decimal digits. *)
Fixpoint all_digits (s : string) : bool :=
  match s with
  | "" => true
  | String c rest =>
      (Nat.leb 48 (nat_of_ascii c) && Nat.leb (nat_of_ascii c) 57) && all_digits rest
  end.


(** A string without a comma, as a MIME type and a base64 payload are. *)
Fixpoint no_comma (s : string) : bool :=
  match s with
  | "" => true
  | String c rest => negb (Ascii.eqb c ",") && no_comma rest
  end.

Definition is_analysis (t : timer) : bool :=
  match job t with
  | AnalysisDone _ => true
  | _ => false
  end.

(** The time left on the pending analysis timers, and their scan lines. *)
Definition pending_analysis (p : page) : list nat :=
  map remaining (filter is_analysis (timers p)).

Definition analysis_node (t : timer) : list nat :=
  match job t with
  | AnalysisDone n => [n]
  | _ => []
  end.

(** The element a callback writes is the one [displayResults] gave it. *)
Definition task_ok (j : task) : Prop :=
  match j with
  | AnalysisDone _ => True
  | ScoreTick element _ _ => element = score_value
  | TypeStep element _ _ => element = explanation_text
  end.

(** What holds of the page throughout: the timers are those the script sets,
    the trigger is disabled exactly while one analysis is pending, and the
    scan lines in the waveform are those of the pending analyses. *)
Definition invariant (p : page) : Prop :=
  Forall (fun t => task_ok (job t)) (timers p)
  /\ List.length (pending_analysis p) = (if analyze_disabled p then 1 else 0)%nat
  /\ scan_lines p = flat_map analysis_node (timers p).

(** The file whose name the page shows after the events: the first file of
    the last selection that had one. *)
Fixpoint last_upload (evs : list event) : option file :=
  match evs with
  | [] => None
  | e :: rest =>
      match last_upload rest with
      | Some f => Some f
      | None =>
          match e with
          | ChangeFiles (f :: _) => Some f
          | _ => None
          end
      end
  end.

Definition activations (evs : list event) : nat :=
  List.length (filter activates evs).

(** The verdict of the mock response on display. *)
Definition verdict_shown (p : page) : Prop :=
  innerText classification_label p = "AI-GENERATED VOICE"
  /\ label_color p = "#fb7185"
  /\ innerText language_badge p = "Telugu Detected".

Definition toggles (e : event) : bool :=
  match e with
  | ClickPlay => true
  | _ => false
  end.

(** An analysis, and a second one activated as soon as the first completes,
    followed by the timers on schedule. *)
Definition retrigger_events (p0 : page) : list event :=
  let first := [ClickAnalyze; Elapse 3000; Fire 0; ClickAnalyze] in
  match run first p0 with
  | Some q => (first ++ schedule 2000 q)%list
  | None => []
  end.

Ltac open_page p :=
  destruct p as [? ? ? ? [? ? ? ? ? ? ?] ? ? ? ? ? ? ? ? ? ?].

(** * Properties *)

(** ** Decimal renderings read back *)

Lemma string_of_uint_all_digits (d : Decimal.uint) :
  all_digits (NilEmpty.string_of_uint d) = true.
Proof. induction d; simpl; auto. Qed.

Lemma N_digits_all_digits (n : N) : all_digits (N_digits n) = true.
Proof. apply string_of_uint_all_digits. Qed.

Lemma N_digits_nonempty (n : N) : N_digits n <> "".
Proof.
  unfold N_digits. destruct n as [|p]; simpl; [discriminate|].
  pose proof (DecimalPos.Unsigned.to_uint_nonnil p) as Hp.
  destruct (Pos.to_uint p); simpl; try discriminate. now elim Hp.
Qed.

Lemma read_digits_N_digits (n : N) : read_digits (N_digits n) = Some n.
Proof.
  unfold read_digits, N_digits.
  now rewrite NilEmpty.usu; simpl; rewrite DecimalN.Unsigned.of_to.
Qed.

Lemma split_point_digits (whole frac : string) :
  all_digits whole = true ->
  split_point (whole ++ String "." frac) = (whole, Some frac).
Proof.
  induction whole as [|c whole IH]; simpl; intros H; [reflexivity|].
  apply andb_true_iff in H as [Hc Hw].
  destruct (Ascii.eqb c ".") eqn:E.
  - apply Ascii.eqb_eq in E. subst c. discriminate Hc.
  - now rewrite (IH Hw).
Qed.

Lemma read_number_unsigned (s : string) :
  all_digits s = true -> s <> "" ->
  forall rest, read_number (s ++ rest) = read_unsigned (s ++ rest).
Proof.
  destruct s as [|c s]; [congruence|]. simpl. intros H _ rest.
  apply andb_true_iff in H as [Hc _].
  destruct c as [[] [] [] [] [] [] [] []]; try reflexivity; discriminate Hc.
Qed.

Lemma N_digits_one_digit (f : N) : (f < 10)%N -> String.length (N_digits f) = 1%nat.
Proof.
  intros H.
  assert (E : (f = 0 \/ f = 1 \/ f = 2 \/ f = 3 \/ f = 4 \/ f = 5 \/ f = 6
               \/ f = 7 \/ f = 8 \/ f = 9)%N) by lia.
  repeat (destruct E as [-> | E]; [reflexivity|]). now subst.
Qed.

(** A numeral with one digit after the point reads as its value. *)
Lemma read_one_decimal (w f : N) :
  (f < 10)%N ->
  read_number (N_digits w ++ "." ++ N_digits f)
  = Some (Qred (inject_Z (Z.of_N w) + inject_Z (Z.of_N f) / inject_Z 10)%Q).
Proof.
  intros Hf.
  rewrite read_number_unsigned
    by (apply N_digits_all_digits || apply N_digits_nonempty).
  unfold read_unsigned. simpl append.
  rewrite split_point_digits by apply N_digits_all_digits.
  rewrite !read_digits_N_digits, (N_digits_one_digit f Hf). reflexivity.
Qed.

(** ** The accumulator *)

Lemma halves_eq (k : nat) : (halves k == Z.of_nat k # 2)%Q.
Proof. apply Qred_correct. Qed.

Lemma plus_half_halves (k : nat) :
  (Z.of_nat k < 2 ^ 53)%Z -> plus_half (halves k) = halves (S k).
Proof.
  intros Hk. unfold plus_half.
  destruct (Qle_bool exact_limit (halves k)) eqn:E.
  - apply Qle_bool_iff in E. rewrite halves_eq in E.
    unfold exact_limit, Qle in E. simpl in E.
    change (2 ^ 53)%Z with 9007199254740992%Z in Hk. lia.
  - apply Qred_complete. rewrite halves_eq.
    unfold Qeq. simpl. lia.
Qed.

Lemma halves_nonneg (k : nat) : (0 <= Qnum (halves k))%Z.
Proof.
  pose proof (halves_eq k) as H. unfold Qeq in H. simpl in H.
  destruct (halves k) as [n d]. simpl in *. lia.
Qed.

Lemma toFixed1_halves (k : nat) :
  toFixed1 (halves k)
  = N_digits (Z.to_N (Z.of_nat k / 2)) ++ "."
      ++ N_digits (Z.to_N (5 * (Z.of_nat k mod 2))).
Proof.
  unfold toFixed1.
  assert (Hn : Qfloor (Qabs (halves k) * 10 + 0.5)%Q = (5 * Z.of_nat k)%Z).
  { assert (E : (Qabs (halves k) * 10 + 0.5 == (Z.of_nat k * 10 + 1) # 2)%Q).
    { rewrite Qabs_pos.
      - rewrite halves_eq. unfold Qeq. simpl. lia.
      - rewrite halves_eq. unfold Qle. simpl. lia. }
    rewrite E. unfold Qfloor.
    symmetry. apply (Z.div_unique _ _ _ 1); lia. }
  rewrite Hn.
  pose proof (halves_nonneg k) as Hs.
  destruct (Qnum (halves k) <? 0)%Z eqn:E; [apply Z.ltb_lt in E; lia|].
  replace (5 * Z.of_nat k / 10)%Z with (Z.of_nat k / 2)%Z
    by (rewrite (Z.mul_comm 5), <- (Z.div_div _ 5 2), Z.div_mul; lia).
  replace (5 * Z.of_nat k mod 10)%Z with (5 * (Z.of_nat k mod 2))%Z
    by (change 10%Z with (5 * 2)%Z; rewrite Z.mul_mod_distr_l; lia).
  reflexivity.
Qed.

(** What [toFixed(1)] shows for the accumulator is the accumulator. *)
Lemma read_toFixed1_halves (k : nat) :
  to_number (JStr (toFixed1 (halves k))) = Some (halves k).
Proof.
  simpl. rewrite toFixed1_halves.
  pose proof (Z.mod_pos_bound (Z.of_nat k) 2 ltac:(lia)) as Hm.
  pose proof (Z.div_mod (Z.of_nat k) 2 ltac:(lia)) as Hd.
  assert (Hq : (0 <= Z.of_nat k / 2)%Z) by (apply Z.div_pos; lia).
  assert (Hf : (Z.to_N (5 * (Z.of_nat k mod 2)) < 10)%N)
    by (apply N2Z.inj_lt; rewrite Z2N.id; lia).
  rewrite (read_one_decimal _ _ Hf).
  unfold halves. f_equal. apply Qred_complete.
  rewrite !Z2N.id by lia.
  unfold Qeq, Qdiv, Qinv, Qmult, Qplus, inject_Z. cbn [Qnum Qden]. lia.
Qed.

(** ** The count-up: where it stops *)

Lemma div_half (x : Q) : (x / 0.5 == x * 2)%Q.
Proof.
  destruct x as [n d]. unfold Qeq, Qdiv, Qmult, Qinv. cbn [Qnum Qden]. lia.
Qed.

Lemma halves_le (m n : nat) : (m <= n)%nat -> (halves m <= halves n)%Q.
Proof.
  intros H. rewrite !halves_eq. unfold Qle. cbn [Qnum Qden]. lia.
Qed.

(** A cleared interval never runs again. *)
Lemma after_ticks_cleared (target : Q) (a : animation) (n m : nat) :
  cleared (after_ticks target n a) = true -> (n <= m)%nat ->
  after_ticks target m a = after_ticks target n a.
Proof.
  intros Hc Hm. induction Hm as [|m Hm IH]; [reflexivity|].
  cbn [after_ticks]. rewrite IH, Hc. reflexivity.
Qed.

(** The callback shows the accumulator first and snaps when it is reached. *)
Lemma interval_callback_writes (target c : Q) :
  let '(c', writes, stop) := interval_callback target c in
  c' = plus_half c
  /\ hd (JNum 0) writes = JStr (toFixed1 c')
  /\ (stop = true <-> (target <= c')%Q)
  /\ last writes (JNum 0) = (if stop then JNum target else JStr (toFixed1 c')).
Proof.
  unfold interval_callback.
  destruct (Qle_bool target (plus_half c)) eqn:E; cbn;
    (split; [reflexivity|split; [reflexivity|split; [|reflexivity]]]).
  - split; [intros _; now apply Qle_bool_iff | reflexivity].
  - split; [discriminate|]. intros H. apply Qle_bool_iff in H. congruence.
Qed.

(** The interval callback on the page: it leaves in the element the last value
    it assigned, and stays armed, 10ms later, unless it cleared itself. *)
Lemma run_task_ScoreTick (element : elem) (target c : Q) (p : page) :
  let a := tick target {| count := c; content := JStr (innerText element p);
                          cleared := false |} in
  innerText element (run_task (ScoreTick element target c) p)
  = js_to_string (content a)
  /\ timers (run_task (ScoreTick element target c) p)
     = (timers p ++ (if cleared a then []
                     else [mkTimer 10 (ScoreTick element target (count a))]))%list.
Proof.
  cbv zeta. unfold tick, run_task, interval_callback. cbn [count content].
  destruct (Qle_bool target (plus_half c)); cbn [fold_left last count content cleared];
    open_page p; destruct element; cbn; rewrite ?app_nil_r; split; reflexivity.
Qed.

Section CountUp.

(** A target in the range where the accumulator is exact, and the text the
    element shows when the animation starts. *)
Variable target : Q.
Variable shown : string.
Hypothesis target_exact : (target <= exact_limit)%Q.

Let a (n : nat) : animation := after_ticks target n (animation_start shown).

Lemma stop_tick_pos : (1 <= stop_tick target)%nat.
Proof. unfold stop_tick. lia. Qed.

(** Before the stop tick the accumulator is below the target. *)
Lemma below_target (k : nat) :
  (1 <= k < stop_tick target)%nat -> (halves k < target)%Q.
Proof.
  unfold stop_tick. intros Hk.
  assert (Hc : (inject_Z (Qceiling (target / 0.5) - 1) < target * 2)%Q).
  { eapply Qlt_le_trans; [apply Qceiling_lt|].
    apply Qle_lteq. right. apply div_half. }
  rewrite halves_eq.
  set (c := Qceiling (target / 0.5)) in *.
  clear target_exact a. destruct target as [n d].
  unfold Qlt, Qmult, inject_Z in *. cbn [Qnum Qden] in *.
  assert (Hd : (0 < Z.pos d)%Z) by lia.
  assert (Hkc : (Z.of_nat k <= c - 1)%Z) by lia.
  nia.
Qed.

(** At the stop tick it has reached the target. *)
Lemma reaches_target : (target <= halves (stop_tick target))%Q.
Proof.
  unfold stop_tick.
  assert (Hc : (target * 2 <= inject_Z (Qceiling (target / 0.5)))%Q).
  { eapply Qle_trans; [|apply Qle_ceiling].
    apply Qle_lteq. right. symmetry. apply div_half. }
  rewrite halves_eq.
  set (c := Qceiling (target / 0.5)) in *.
  clear target_exact a. destruct target as [n d].
  unfold Qle, Qmult, inject_Z in *. cbn [Qnum Qden] in *.
  assert (Hd : (0 < Z.pos d)%Z) by lia.
  assert (Hkc : (c <= Z.of_nat (Z.to_nat (Z.max 1 c)))%Z) by lia.
  nia.
Qed.

Lemma halves_below_limit (k : nat) :
  (halves k < target)%Q -> (Z.of_nat k < 2 ^ 53)%Z.
Proof.
  intros Hk. pose proof (Qlt_le_trans _ _ _ Hk target_exact) as H.
  rewrite halves_eq in H. unfold exact_limit, Qlt, inject_Z in H.
  cbn [Qnum Qden] in H.
  change (2 ^ 52)%Z with 4503599627370496%Z in H.
  change (2 ^ 53)%Z with 9007199254740992%Z. lia.
Qed.

(** Up to the stop tick every step of 0.5 is exact. *)
Lemma stop_tick_exact (k : nat) :
  (k < stop_tick target)%nat -> plus_half (halves k) = halves (S k).
Proof.
  intros Hk. apply plus_half_halves.
  destruct k as [|k]; [reflexivity|].
  apply halves_below_limit, below_target. lia.
Qed.

(** The animation while it runs, tick by tick. *)
Lemma after_ticks_running (k : nat) :
  (k < stop_tick target)%nat ->
  a k = {| count := halves k;
           content := if Nat.eqb k 0 then JStr shown
                      else JStr (toFixed1 (halves k));
           cleared := false |}.
Proof.
  unfold a. induction k as [|k IH]; intros Hk; [reflexivity|].
  cbn [after_ticks]. rewrite IH by lia. cbn [cleared].
  unfold tick, interval_callback. cbn [count content].
  rewrite (stop_tick_exact k) by lia.
  assert (Hb : (halves (S k) < target)%Q) by (apply below_target; lia).
  destruct (Qle_bool target (halves (S k))) eqn:E.
  - apply Qle_bool_iff in E. exfalso. exact (Qlt_not_le _ _ Hb E).
  - reflexivity.
Qed.

(** The tick on which it stops. *)
Lemma after_ticks_stop :
  a (stop_tick target)
  = {| count := halves (stop_tick target); content := JNum target;
       cleared := true |}.
Proof.
  pose proof stop_tick_pos as Hp. pose proof reaches_target as Hr.
  pose proof after_ticks_running as Hrun. pose proof stop_tick_exact as He.
  unfold a in *. destruct (stop_tick target) as [|k]; [lia|].
  cbn [after_ticks]. rewrite Hrun by lia.
  cbn [cleared]. unfold tick, interval_callback. cbn [count content].
  rewrite (He k) by lia.
  apply Qle_bool_iff in Hr. rewrite Hr. reflexivity.
Qed.

Lemma after_ticks_stopped (n : nat) :
  (stop_tick target <= n)%nat -> a n = a (stop_tick target).
Proof.
  intros Hn. unfold a. apply after_ticks_cleared; [|assumption].
  fold (a (stop_tick target)). now rewrite after_ticks_stop.
Qed.

(** The number on display at the end of a tick. *)
Lemma shown_value (n : nat) :
  (1 <= n)%nat ->
  to_number (content (a n))
  = Some (if Nat.ltb n (stop_tick target) then halves n else target).
Proof.
  intros Hn. destruct (Nat.ltb_spec n (stop_tick target)) as [E|E].
  - rewrite after_ticks_running by assumption.
    cbn [content]. destruct n as [|n]; [lia|]. cbn [Nat.eqb].
    apply read_toFixed1_halves.
  - rewrite after_ticks_stopped, after_ticks_stop by assumption. reflexivity.
Qed.

(** C3. For a target S (within the range where the 0.5 steps are exact, which
    contains every score), each tick of the count-up adds 0.5 to the
    accumulator and shows it; on the first tick where the accumulator
    reaches or exceeds S, the tick [stop_tick S], the display is set to S
    itself and the interval stops.  The value on display at the end of a
    tick never exceeds S, ends as exactly S, and never decreases from tick
    to tick. *)
Theorem animateScore_counts_up_and_snaps :
  (forall c, let '(c', writes, _) := interval_callback target c in
             c' = plus_half c /\ hd (JNum 0) writes = JStr (toFixed1 c'))
  /\ (forall k, (1 <= k < stop_tick target)%nat ->
        count (a k) = halves k
        /\ content (a k) = JStr (toFixed1 (halves k))
        /\ cleared (a k) = false
        /\ to_number (content (a k)) = Some (halves k)
        /\ (halves k < target)%Q)
  /\ ((target <= count (a (stop_tick target)))%Q
      /\ content (a (stop_tick target)) = JNum target
      /\ js_to_string (content (a (stop_tick target))) = number_to_string target
      /\ cleared (a (stop_tick target)) = true)
  /\ (forall n, (stop_tick target <= n)%nat -> a n = a (stop_tick target))
  /\ (forall n, (1 <= n)%nat ->
        exists v, to_number (content (a n)) = Some v /\ (v <= target)%Q)
  /\ (forall m n v w, (1 <= m <= n)%nat ->
        to_number (content (a m)) = Some v ->
        to_number (content (a n)) = Some w -> (v <= w)%Q)
  /\ (forall element p,
        timers (animateScore element target p)
        = (timers p ++ [mkTimer 10 (ScoreTick element target 0)])%list)
  /\ (forall element c p,
        let a' := tick target {| count := c; content := JStr (innerText element p);
                                 cleared := false |} in
        innerText element (run_task (ScoreTick element target c) p)
        = js_to_string (content a')
        /\ timers (run_task (ScoreTick element target c) p)
           = (timers p
              ++ (if cleared a' then []
                  else [mkTimer 10 (ScoreTick element target (count a'))]))%list).
Proof.
  split; [|split; [|split; [|split; [|split; [|split; [|split]]]]]];
    [| | | | | |intros element p; destruct p; reflexivity
     |intros element c p; apply run_task_ScoreTick].
  - intros c. pose proof (interval_callback_writes target c) as H.
    destruct (interval_callback target c) as [[c' writes] s]. tauto.
  - intros k Hk. rewrite after_ticks_running by lia.
    cbn [count content cleared].
    destruct k as [|k]; [lia|]. cbn [Nat.eqb].
    repeat split; try reflexivity.
    + apply read_toFixed1_halves.
    + apply below_target. lia.
  - rewrite after_ticks_stop. cbn [count content cleared js_to_string].
    repeat split. apply reaches_target.
  - exact after_ticks_stopped.
  - intros n Hn. rewrite shown_value by assumption.
    eexists; split; [reflexivity|].
    destruct (Nat.ltb_spec n (stop_tick target)) as [E|E].
    + apply Qlt_le_weak, below_target. lia.
    + apply Qle_refl.
  - intros m n v w Hmn Hv Hw.
    rewrite shown_value in Hv, Hw by lia.
    injection Hv as <-. injection Hw as <-.
    destruct (Nat.ltb_spec m (stop_tick target)) as [Em|Em];
      destruct (Nat.ltb_spec n (stop_tick target)) as [En|En].
    + apply halves_le. lia.
    + apply Qlt_le_weak, below_target. lia.
    + lia.
    + apply Qle_refl.
Qed.

(** C10. For a target S (within the range where the 0.5 steps are exact), the
    count-up stops on tick max(1, ceil(S / 0.5)) and not before, and never
    runs again.  The interval is set with a period of 10ms and re-armed with
    10ms whatever the value of [speed], which is not used. *)
Theorem animateScore_stops_after_bound :
  cleared (a (Z.to_nat (Z.max 1 (Qceiling (target / 0.5)%Q)))) = true
  /\ (forall n, (n < Z.to_nat (Z.max 1 (Qceiling (target / 0.5)%Q)))%nat ->
        cleared (a n) = false)
  /\ (forall n, (Z.to_nat (Z.max 1 (Qceiling (target / 0.5)%Q)) <= n)%nat ->
        a n = a (Z.to_nat (Z.max 1 (Qceiling (target / 0.5)%Q))))
  /\ (forall speed element p,
        animateScore_with speed element target p = animateScore element target p
        /\ timers (animateScore element target p)
           = (timers p ++ [mkTimer 10 (ScoreTick element target 0)])%list)
  /\ (forall element c p,
        timers (run_task (ScoreTick element target c) p) = timers p
        \/ timers (run_task (ScoreTick element target c) p)
           = (timers p
              ++ [mkTimer 10 (ScoreTick element target (plus_half c))])%list).
Proof.
  fold (stop_tick target).
  split; [|split; [|split; [|split]]].
  - now rewrite after_ticks_stop.
  - intros n Hn. now rewrite after_ticks_running.
  - exact after_ticks_stopped.
  - intros speed element p. split; [reflexivity|].
    destruct p; reflexivity.
  - intros element c p.
    destruct (run_task_ScoreTick element target c p) as [_ H].
    rewrite H. unfold tick, interval_callback. cbn [count].
    destruct (Qle_bool target (plus_half c)); cbn [cleared count].
    + left. apply app_nil_r.
    + right. reflexivity.
Qed.

End CountUp.

(** The score of the mock response: 196 ticks, the last one snaps to 97.8. *)
Lemma animateScore_counts_up_and_snaps_witness :
  (97.8 <= exact_limit)%Q
  /\ stop_tick 97.8 = 196%nat
  /\ content (after_ticks 97.8 196 (animation_start "0")) = JNum 97.8
  /\ cleared (after_ticks 97.8 196 (animation_start "0")) = true
  /\ (forall n, (1 <= n)%nat ->
        exists v, to_number (content (after_ticks 97.8 n (animation_start "0"))) = Some v
                  /\ (v <= 97.8)%Q).
Proof.
  assert (Hl : (97.8 <= exact_limit)%Q) by (unfold Qle; vm_compute; discriminate).
  pose proof (animateScore_counts_up_and_snaps 97.8 "0" Hl) as H.
  destruct H as (_ & _ & (_ & Hc & _ & Hs) & _ & Hv & _).
  split; [exact Hl|]. split; [reflexivity|].
  change (stop_tick 97.8) with 196%nat in Hc, Hs.
  split; [exact Hc|]. split; [exact Hs|exact Hv].
Defined.

(** A target of 2: the interval stops on its fourth tick. *)
Lemma animateScore_stops_after_bound_witness :
  (2 <= exact_limit)%Q
  /\ cleared (after_ticks 2 4 (animation_start "0")) = true
  /\ (forall n, (n < 4)%nat -> cleared (after_ticks 2 n (animation_start "0")) = false).
Proof.
  assert (Hl : (2 <= exact_limit)%Q) by (unfold Qle; vm_compute; discriminate).
  pose proof (animateScore_stops_after_bound 2 "0" Hl) as H.
  destruct H as (Hc & Hn & _).
  split; [exact Hl|]. split; [exact Hc|exact Hn].
Defined.

(** ** The typewriter *)





(** [typeWriter] on the page: one call on the element, re-armed in 20ms. *)
Lemma typeWriter_page (element : elem) (txt : string) (i : nat) (p : page) :
  innerText element (typeWriter element txt i p)
  = fst (typeWriter_call txt i (innerText element p))
  /\ timers (typeWriter element txt i p)
     = (timers p
        ++ match snd (typeWriter_call txt i (innerText element p)) with
           | Some j => [mkTimer 20 (TypeStep element txt j)]
           | None => []
           end)%list.
Proof.
  unfold typeWriter.
  destruct (typeWriter_call txt i (innerText element p)) as [html [j|]];
    destruct p as [? ? ? ? [? ? ? ? ? ? ?] ? ? ? ? ? ? ? ? ? ?];
    destruct element; cbn; rewrite ?app_nil_r; split; reflexivity.
Qed.




Lemma after_periods_idle (k : nat) (q : page) :
  timers q = [] -> after_periods k q = Some q.
Proof.
  intros H. induction k as [|k IH]; [reflexivity|].
  cbn [after_periods]. rewrite IH. unfold next_events. now rewrite H.
Qed.






(** ** The invariant of the event loop *)

Lemma loaded_invariant (p : page) : loaded p -> invariant p.
Proof.
  intros (_ & _ & Hd & Hs & _ & _ & _ & _ & _ & Ht).
  unfold invariant, pending_analysis. rewrite Ht, Hd, Hs. cbn. auto.
Qed.

Lemma nth_error_remove_nth_Forall {A : Type} (P : A -> Prop) (n : nat) (l : list A) :
  Forall P l -> Forall P (remove_nth n l).
Proof.
  intros H. revert n. induction H as [|x l Hx Hl IH]; intros [|n]; cbn; auto.
Qed.

Lemma nth_error_Forall {A : Type} (P : A -> Prop) (n : nat) (l : list A) (x : A) :
  Forall P l -> nth_error l n = Some x -> P x.
Proof.
  intros H Hn. apply nth_error_In in Hn. rewrite Forall_forall in H. auto.
Qed.

(** Removing the timer that ran. *)
Lemma filter_remove_nth (n : nat) (ts : list timer) (t : timer) :
  nth_error ts n = Some t ->
  (is_analysis t = false ->
     filter is_analysis (remove_nth n ts) = filter is_analysis ts
     /\ flat_map analysis_node (remove_nth n ts) = flat_map analysis_node ts)
  /\ (is_analysis t = true ->
     List.length (filter is_analysis ts)
     = S (List.length (filter is_analysis (remove_nth n ts)))
     /\ exists before after,
          flat_map analysis_node ts = (before ++ analysis_node t ++ after)%list
          /\ flat_map analysis_node (remove_nth n ts) = (before ++ after)%list).
Proof.
  revert n. induction ts as [|x ts IH]; intros [|n] Hn; cbn in Hn; try discriminate.
  - injection Hn as ->. split; intros Ht; cbn; rewrite Ht.
    + unfold analysis_node. unfold is_analysis in Ht.
      destruct (job t); [discriminate| |]; auto.
    + split; [reflexivity|]. exists [], (flat_map analysis_node ts). auto.
  - destruct (IH n Hn) as [Hf Ht]. split; intros E; cbn.
    + destruct (Hf E) as [-> ->]. auto.
    + destruct (Ht E) as [Hl (before & after & H1 & H2)].
      split.
      * destruct (is_analysis x); cbn; lia.
      * exists (analysis_node x ++ before)%list, after.
        rewrite H1, H2, <- !app_assoc. auto.
Qed.

Lemma filter_elapse (ms : nat) (ts : list timer) :
  filter is_analysis (map (fun t => mkTimer (remaining t - ms) (job t)) ts)
  = map (fun t => mkTimer (remaining t - ms) (job t)) (filter is_analysis ts)
  /\ flat_map analysis_node (map (fun t => mkTimer (remaining t - ms) (job t)) ts)
     = flat_map analysis_node ts.
Proof.
  induction ts as [|[r j] ts [IH1 IH2]]; [auto|].
  cbn [map filter flat_map remaining job]. rewrite IH1, IH2.
  destruct j; split; reflexivity.
Qed.

(** What a timer callback changes on the page. *)
Lemma run_task_effect (j : task) (p : page) :
  task_ok j ->
  innerText file_name (run_task j p) = innerText file_name p
  /\ results_hidden (run_task j p)
     = match j with AnalysisDone _ => false | _ => results_hidden p end
  /\ analyze_disabled (run_task j p)
     = match j with AnalysisDone _ => false | _ => analyze_disabled p end
  /\ scan_lines (run_task j p)
     = match j with
       | AnalysisDone n => remove_node n (scan_lines p)
       | _ => scan_lines p
       end
  /\ audioBase64 (run_task j p) = audioBase64 p
  /\ match j with
     | AnalysisDone _ => innerText analyze_btn (run_task j p) = "Verify Authenticity"
     | _ => True
     end
  /\ exists new,
       timers (run_task j p) = (timers p ++ new)%list
       /\ Forall (fun t => task_ok (job t) /\ is_analysis t = false) new.
Proof.
  intros Hok.
  destruct p as [? ? ? ? [? ? ? ? ? ? ?] ? ? ? ? ? ? ? ? ? ?].
  destruct j as [n|element target c|element txt i]; cbn in Hok; subst.
  - cbn. repeat split. eexists; split; [symmetry; apply app_assoc|].
    repeat constructor.
  - unfold run_task, interval_callback.
    destruct (Qle_bool target (plus_half c)); cbn; repeat split.
    + exists []. rewrite app_nil_r. auto.
    + eexists; split; [reflexivity|]. repeat constructor.
  - unfold run_task, typeWriter, typeWriter_call.
    destruct (Nat.eqb i 0); destruct (Nat.ltb i (String.length txt)); cbn;
      repeat split;
      try (exists []; rewrite app_nil_r; split; [reflexivity|constructor]);
      try (eexists; split; [reflexivity|]; repeat constructor).
Qed.

Lemma analysis_nodes_length (ts : list timer) :
  List.length (flat_map analysis_node ts) = List.length (filter is_analysis ts).
Proof.
  induction ts as [|[r j] ts IH]; [reflexivity|].
  cbn [flat_map filter]. unfold analysis_node at 1, is_analysis at 1. cbn [job].
  destruct j; cbn; rewrite ?IH; reflexivity.
Qed.

Lemma no_analysis_among (new : list timer) :
  Forall (fun t => task_ok (job t) /\ is_analysis t = false) new ->
  Forall (fun t => task_ok (job t)) new
  /\ filter is_analysis new = []
  /\ flat_map analysis_node new = [].
Proof.
  induction 1 as [|[r j] new [Hok Hna] _ (IH1 & IH2 & IH3)]; [auto|].
  cbn [filter flat_map]. rewrite Hna, IH2, IH3.
  unfold is_analysis, analysis_node in *. cbn [job] in *.
  destruct j; [discriminate| |]; auto.
Qed.

Lemma set_timers_frame (ts : list timer) (p : page) :
  timers (set_timers ts p) = ts
  /\ analyze_disabled (set_timers ts p) = analyze_disabled p
  /\ results_hidden (set_timers ts p) = results_hidden p
  /\ scan_lines (set_timers ts p) = scan_lines p
  /\ audioBase64 (set_timers ts p) = audioBase64 p
  /\ innerText file_name (set_timers ts p) = innerText file_name p.
Proof. destruct p; cbn; auto 10. Qed.

(** A due timer runs. *)
Lemma fire_effect (p : page) (n : nat) (t : timer) :
  invariant p -> nth_error (timers p) n = Some t ->
  let p' := run_task (job t) (set_timers (remove_nth n (timers p)) p) in
  invariant p'
  /\ innerText file_name p' = innerText file_name p
  /\ audioBase64 p' = audioBase64 p
  /\ results_hidden p' = (if is_analysis t then false else results_hidden p)
  /\ analyze_disabled p' = (if is_analysis t then false else analyze_disabled p)
  /\ pending_analysis p' = (if is_analysis t then [] else pending_analysis p)
  /\ (is_analysis t = true ->
        analyze_disabled p = true /\ In (remaining t) (pending_analysis p)
        /\ scan_lines p' = []
        /\ innerText analyze_btn p' = "Verify Authenticity").
Proof.
  intros (Hok & Hlen & Hscan) Hn p'.
  assert (Ht : task_ok (job t)) by exact (nth_error_Forall _ _ _ _ Hok Hn).
  destruct (set_timers_frame (remove_nth n (timers p)) p)
    as (Et & Ed & Er & Es & Ea & Ef).
  destruct (run_task_effect (job t) (set_timers (remove_nth n (timers p)) p) Ht)
    as (Ff & Fr & Fd & Fs & Fa & Fb & new & Fnew & Hnew).
  fold p' in Ff, Fr, Fd, Fs, Fa, Fb, Fnew.
  rewrite Et in Fnew. rewrite Ed in Fd. rewrite Er in Fr. rewrite Es in Fs.
  rewrite Ea in Fa. rewrite Ef in Ff.
  destruct (no_analysis_among new Hnew) as (Hnok & Hnf & Hnn).
  destruct (filter_remove_nth n (timers p) t Hn) as [Hno Hyes].
  assert (Hp : pending_analysis p'
               = map remaining (filter is_analysis (remove_nth n (timers p)))).
  { unfold pending_analysis. now rewrite Fnew, filter_app, Hnf, app_nil_r. }
  assert (Hs' : flat_map analysis_node (timers p')
                = flat_map analysis_node (remove_nth n (timers p))).
  { now rewrite Fnew, flat_map_app, Hnn, app_nil_r. }
  assert (Hok' : Forall (fun t => task_ok (job t)) (timers p')).
  { rewrite Fnew. apply Forall_app. split; [|assumption].
    now apply nth_error_remove_nth_Forall. }
  destruct (is_analysis t) eqn:E.
  - destruct (Hyes eq_refl) as (Hl & before & after & Hb & Ha).
    unfold pending_analysis in Hlen. rewrite length_map, Hl in Hlen.
    destruct (analyze_disabled p) eqn:Hd; [|discriminate].
    injection Hlen as Hlen. apply length_zero_iff_nil in Hlen.
    pose proof (analysis_nodes_length (remove_nth n (timers p))) as Hz.
    rewrite Hlen, Ha in Hz. apply length_zero_iff_nil in Hz.
    apply app_eq_nil in Hz as [-> ->]. cbn in Ha, Hb. rewrite app_nil_r in Hb.
    unfold is_analysis in E.
    destruct (job t) as [node| |] eqn:Ej; try discriminate.
    assert (En : analysis_node t = [node])
      by (unfold analysis_node; now rewrite Ej).
    rewrite En in Hb.
    assert (Hempty : scan_lines p' = []).
    { rewrite Fs, Hscan, Hb. unfold remove_node. cbn.
      now rewrite Nat.eqb_refl. }
    repeat split; auto.
    + now rewrite Hp, Hlen, Fd.
    + now rewrite Hempty, Hs', Ha.
    + now rewrite Hp, Hlen.
    + unfold pending_analysis. apply in_map. apply filter_In. split.
      * eapply nth_error_In; eassumption.
      * unfold is_analysis. now rewrite Ej.
  - destruct (Hno eq_refl) as [Hf Hm].
    unfold is_analysis in E.
    assert (Fd' : analyze_disabled p' = analyze_disabled p)
      by (rewrite Fd; destruct (job t); [discriminate| |]; reflexivity).
    assert (Fr' : results_hidden p' = results_hidden p)
      by (rewrite Fr; destruct (job t); [discriminate| |]; reflexivity).
    assert (Fs' : scan_lines p' = scan_lines p)
      by (rewrite Fs; destruct (job t); [discriminate| |]; reflexivity).
    assert (Hp' : pending_analysis p' = pending_analysis p)
      by (rewrite Hp, Hf; reflexivity).
    repeat split; auto; try discriminate.
    + now rewrite Hp', Fd'.
    + now rewrite Fs', Hs', Hm.
Qed.

Lemma completes_Fire (p : page) (n : nat) (t : timer) :
  nth_error (timers p) n = Some t -> completes p (Fire n) = is_analysis t.
Proof.
  intros H. unfold completes, is_analysis. rewrite H. now destruct t as [r []].
Qed.

(** What one turn of the event loop changes on the page. *)
Lemma step_effect (p : page) (e : event) (p' : page) :
  invariant p -> step p e = Some p' ->
  invariant p'
  /\ innerText file_name p'
     = match e with
       | ChangeFiles (f :: _) => name f
       | _ => innerText file_name p
       end
  /\ audioBase64 p'
     = match e with
       | LoadEnd _ (Some url) => nth_error (split "," url) 1
       | _ => audioBase64 p
       end
  /\ results_hidden p' = (if completes p e then false else results_hidden p)
  /\ analyze_disabled p'
     = (if activates e then true
        else if completes p e then false else analyze_disabled p)
  /\ pending_analysis p'
     = match e with
       | ClickAnalyze => (pending_analysis p ++ [3000])%list
       | Elapse ms => map (fun r => r - ms) (pending_analysis p)
       | _ => if completes p e then [] else pending_analysis p
       end
  /\ (activates e = true -> analyze_disabled p = false)
  /\ (completes p e = true ->
        analyze_disabled p = true /\ In 0 (pending_analysis p)
        /\ scan_lines p' = []
        /\ innerText analyze_btn p' = "Verify Authenticity").
Proof.
  intros Hinv Hstep.
  destruct e as [files| | | |ms|n|n result|n]; cbn [step] in Hstep.
  - injection Hstep as <-. destruct Hinv as (Hok & Hlen & Hscan).
    destruct files as [|f others]; open_page p; cbn in *;
      repeat split; auto; try discriminate.
  - injection Hstep as <-. destruct Hinv as (Hok & Hlen & Hscan).
    repeat split; auto; try discriminate.
  - injection Hstep as <-. destruct Hinv as (Hok & Hlen & Hscan).
    open_page p; cbn in *; repeat split; auto; try discriminate.
  - destruct (analyze_disabled p) eqn:Hd; [discriminate|].
    injection Hstep as <-. destruct Hinv as (Hok & Hlen & Hscan).
    open_page p; unfold invariant, pending_analysis in *; cbn in *.
    rewrite filter_app, flat_map_app, length_map, length_app in *. cbn.
    rewrite Hscan. repeat split; auto; try discriminate.
    + apply Forall_app. split; auto. repeat constructor.
    + rewrite Hlen, Hd. reflexivity.
    + now rewrite map_app.
  - injection Hstep as <-. destruct Hinv as (Hok & Hlen & Hscan).
    open_page p; unfold invariant, pending_analysis in *; cbn in *.
    destruct (filter_elapse ms timers0) as [-> ->].
    rewrite !map_map, !length_map in *. cbn.
    repeat split; auto; try discriminate.
    apply Forall_map. exact Hok.
  - destruct (nth_error (timers p) n) as [t|] eqn:Hn; [|discriminate].
    destruct (Nat.eqb_spec (remaining t) 0) as [Hr|]; [|discriminate].
    injection Hstep as <-.
    destruct (fire_effect p n t Hinv Hn) as (H1 & H2 & H3 & H4 & H5 & H6 & H7).
    rewrite (completes_Fire p n t Hn). cbn [activates].
    rewrite Hr in H7.
    split; [exact H1|]. split; [exact H2|]. split; [exact H3|].
    split; [exact H4|]. split; [exact H5|]. split; [exact H6|].
    split; [discriminate|exact H7].
  - destruct (nth_error (readers p) n) as [f|]; [|discriminate].
    injection Hstep as <-. destruct Hinv as (Hok & Hlen & Hscan).
    destruct result; open_page p; cbn in *; repeat split; auto; try discriminate.
  - destruct (nth_error (loading p) n) as [f|]; [|discriminate].
    injection Hstep as <-. destruct Hinv as (Hok & Hlen & Hscan).
    open_page p; cbn in *; repeat split; auto; try discriminate.
Qed.

(** ** Executions *)

Lemma run_invariant (evs : list event) (p p' : page) :
  invariant p -> run evs p = Some p' -> invariant p'.
Proof.
  revert p. induction evs as [|e evs IH]; intros p Hinv Hrun; cbn in Hrun.
  - now injection Hrun as <-.
  - destruct (step p e) as [p1|] eqn:Hs; [|discriminate].
    apply (IH p1); [|assumption]. now apply (step_effect p e p1).
Qed.

Lemma run_app (evs more : list event) (p : page) :
  run (evs ++ more) p
  = match run evs p with
    | Some p' => run more p'
    | None => None
    end.
Proof.
  revert p. induction evs as [|e evs IH]; intros p; cbn; [reflexivity|].
  destruct (step p e); [apply IH|reflexivity].
Qed.

(** The name on display is that of the last file selected. *)
Lemma run_file_name (evs : list event) (p p' : page) :
  invariant p -> run evs p = Some p' ->
  innerText file_name p'
  = match last_upload evs with
    | Some f => name f
    | None => innerText file_name p
    end.
Proof.
  revert p. induction evs as [|e evs IH]; intros p Hinv Hrun; cbn in Hrun.
  - now injection Hrun as <-.
  - destruct (step p e) as [p1|] eqn:Hs; [|discriminate].
    destruct (step_effect p e p1 Hinv Hs) as (Hinv1 & Hf & _).
    rewrite (IH p1 Hinv1 Hrun). cbn [last_upload].
    destruct (last_upload evs); [reflexivity|]. rewrite Hf.
    destruct e as [[|f others]| | | | | | |]; reflexivity.
Qed.

(** Activations and completions alternate. *)
Lemma run_balance (evs : list event) (p p' : page) :
  invariant p -> run evs p = Some p' ->
  (activations evs + (if analyze_disabled p then 1 else 0)
   = completions evs p + (if analyze_disabled p' then 1 else 0))%nat.
Proof.
  revert p. induction evs as [|e evs IH]; intros p Hinv Hrun; cbn in Hrun.
  - now injection Hrun as <-.
  - destruct (step p e) as [p1|] eqn:Hs; [|discriminate].
    destruct (step_effect p e p1 Hinv Hs)
      as (Hinv1 & _ & _ & _ & Hd & _ & Ha & Hc).
    specialize (IH p1 Hinv1 Hrun).
    unfold activations in *. cbn [filter completions]. rewrite Hs.
    destruct (activates e) eqn:Ea; destruct (completes p e) eqn:Ec;
      cbn [List.length]; rewrite Hd in IH.
    + destruct (Hc eq_refl) as [Hd1 _]. rewrite (Ha eq_refl) in Hd1. discriminate.
    + rewrite (Ha eq_refl). lia.
    + destruct (Hc eq_refl) as [-> _]. lia.
    + lia.
Qed.

(** The results surface is revealed by a completion only. *)
Lemma run_results (evs : list event) (p p' : page) :
  invariant p -> run evs p = Some p' ->
  results_hidden p = true -> results_hidden p' = false ->
  (1 <= completions evs p)%nat.
Proof.
  revert p. induction evs as [|e evs IH]; intros p Hinv Hrun Hh Hv; cbn in Hrun.
  - injection Hrun as <-. congruence.
  - destruct (step p e) as [p1|] eqn:Hs; [|discriminate].
    destruct (step_effect p e p1 Hinv Hs) as (Hinv1 & _ & _ & Hr & _).
    cbn [completions]. rewrite Hs.
    destruct (completes p e); [lia|].
    rewrite Hh in Hr. apply (IH p1 Hinv1 Hrun Hr Hv).
Qed.

(** While less time has passed than a pending analysis has left, it stays
    pending and the trigger stays disabled. *)
Lemma run_waiting (evs : list event) (p p' : page) (r : nat) :
  invariant p -> run evs p = Some p' ->
  pending_analysis p = [r] -> (elapsed evs < r)%nat ->
  pending_analysis p' = [r - elapsed evs]
  /\ completions evs p = 0%nat
  /\ analyze_disabled p' = true.
Proof.
  revert p r. induction evs as [|e evs IH]; intros p r Hinv Hrun Hp He;
    cbn in Hrun.
  - injection Hrun as <-. cbn. rewrite Nat.sub_0_r.
    destruct Hinv as (_ & Hl & _). rewrite Hp in Hl.
    repeat split; auto. now destruct (analyze_disabled p).
  - destruct (step p e) as [p1|] eqn:Hs; [|discriminate].
    destruct (step_effect p e p1 Hinv Hs)
      as (Hinv1 & _ & _ & _ & _ & Hp1 & Ha & Hc).
    assert (Hd : analyze_disabled p = true).
    { destruct Hinv as (_ & Hl & _). rewrite Hp in Hl.
      now destruct (analyze_disabled p). }
    assert (Hnc : completes p e = false).
    { destruct (completes p e); [|reflexivity].
      destruct (Hc eq_refl) as (_ & Hin & _). rewrite Hp in Hin.
      destruct Hin as [Hin|[]]. lia. }
    cbn [completions]. rewrite Hs, Hnc. rewrite Hnc, Hp in Hp1.
    destruct e as [files| | | |ms|n|n result|n]; cbn [elapsed] in *;
      try (exact (IH p1 r Hinv1 Hrun Hp1 He)).
    + specialize (Ha eq_refl). congruence.
    + cbn in Hp1.
      destruct (IH p1 (r - ms) Hinv1 Hrun Hp1 ltac:(lia)) as (H1 & H2 & H3).
      rewrite H1. repeat split; auto. f_equal. lia.
Qed.

(** ** The analyze trigger *)

Lemma click_busy_label (p p1 : page) :
  step p ClickAnalyze = Some p1 -> innerText analyze_btn p1 = busy_html.
Proof.
  cbn [step]. destruct (analyze_disabled p); [discriminate|].
  intros [= <-]. open_page p. reflexivity.
Qed.

(** C2. In every execution from the page as loaded: activating the trigger
    disables it at once and sets one timer of 3000ms; while less than 3000ms
    have passed since, whatever else happens, the trigger is still disabled
    and no analysis has completed; the only event that re-enables it is the
    completion of the analysis, which also removes the scan line, reveals the
    result and restores the default label; activations and completions
    alternate, so a second activation is always preceded by a completion. *)
Theorem analyze_trigger_disabled_until_completion
  (p0 : page) (evs : list event) (p : page) :
  loaded p0 -> run evs p0 = Some p ->
  (forall p1, step p ClickAnalyze = Some p1 ->
     analyze_disabled p = false
     /\ analyze_disabled p1 = true
     /\ innerText analyze_btn p1 = busy_html
     /\ pending_analysis p1 = [3000]
     /\ (forall more p2, run more p1 = Some p2 -> (elapsed more < 3000)%nat ->
           analyze_disabled p2 = true /\ completions more p1 = 0%nat)
     /\ (forall more p2, run (more ++ [ClickAnalyze]) p1 = Some p2 ->
           (1 <= completions more p1)%nat))
  /\ (forall e p1, step p e = Some p1 -> analyze_disabled p = true ->
        (analyze_disabled p1 = false <-> completes p e = true))
  /\ (forall e p1, step p e = Some p1 -> completes p e = true ->
        analyze_disabled p = true /\ analyze_disabled p1 = false
        /\ scan_lines p1 = [] /\ results_hidden p1 = false
        /\ innerText analyze_btn p1 = "Verify Authenticity")
  /\ (activations evs
      = completions evs p0 + (if analyze_disabled p then 1 else 0))%nat.
Proof.
  intros Hl Hrun.
  pose proof (loaded_invariant p0 Hl) as Hinv0.
  pose proof (run_invariant evs p0 p Hinv0 Hrun) as Hinv.
  split; [|split; [|split]].
  - intros p1 Hs.
    destruct (step_effect p ClickAnalyze p1 Hinv Hs)
      as (Hinv1 & _ & _ & _ & Hd & Hp & Ha & _).
    cbn [activates] in Hd, Ha. specialize (Ha eq_refl).
    assert (Hp1 : pending_analysis p1 = [3000]).
    { destruct Hinv as (_ & Hlen & _). rewrite Ha in Hlen.
      apply length_zero_iff_nil in Hlen. now rewrite Hp, Hlen. }
    split; [exact Ha|]. split; [exact Hd|].
    split; [exact (click_busy_label p p1 Hs)|]. split; [exact Hp1|]. split.
    + intros more p2 Hm He.
      destruct (run_waiting more p1 p2 3000 Hinv1 Hm Hp1 He) as (_ & Hc & Hd2).
      now split.
    + intros more p2 Hm. rewrite run_app in Hm.
      destruct (run more p1) as [q|] eqn:Hq; [|discriminate].
      pose proof (run_invariant more p1 q Hinv1 Hq) as Hinvq.
      cbn [run] in Hm. destruct (step q ClickAnalyze) as [q'|] eqn:Hsq;
        [|discriminate].
      destruct (step_effect q ClickAnalyze q' Hinvq Hsq)
        as (_ & _ & _ & _ & _ & _ & Haq & _).
      pose proof (run_balance more p1 q Hinv1 Hq) as Hb.
      rewrite Hd, (Haq eq_refl) in Hb. lia.
  - intros e p1 Hs Hd.
    destruct (step_effect p e p1 Hinv Hs) as (_ & _ & _ & _ & Hd1 & _ & Ha & _).
    destruct (activates e).
    + specialize (Ha eq_refl). congruence.
    + rewrite Hd1. destruct (completes p e); rewrite ?Hd; split; congruence.
  - intros e p1 Hs Hc.
    destruct (step_effect p e p1 Hinv Hs)
      as (_ & _ & _ & Hr & Hd1 & _ & Ha & Hc1).
    destruct (Hc1 Hc) as (Hd & _ & Hsl & Hb). rewrite Hc in Hr, Hd1.
    destruct (activates e); [specialize (Ha eq_refl); congruence|].
    repeat split; assumption.
  - pose proof (run_balance evs p0 p Hinv0 Hrun) as Hb.
    destruct Hl as (_ & _ & Hd & _). rewrite Hd in Hb. lia.
Qed.

Lemma loaded_initial_page : loaded initial_page.
Proof. repeat split. Defined.

(** An activation, 3000ms, the completion, and a second activation. *)
Lemma analyze_trigger_disabled_until_completion_witness :
  loaded initial_page
  /\ exists p,
       run [ClickAnalyze; Elapse 3000; Fire 0; ClickAnalyze] initial_page = Some p
       /\ (activations [ClickAnalyze; Elapse 3000; Fire 0; ClickAnalyze]
           = completions [ClickAnalyze; Elapse 3000; Fire 0; ClickAnalyze]
               initial_page
             + (if analyze_disabled p then 1 else 0))%nat.
Proof.
  split; [exact loaded_initial_page|].
  destruct (run [ClickAnalyze; Elapse 3000; Fire 0; ClickAnalyze] initial_page)
    as [p|] eqn:Hrun; [|vm_compute in Hrun; discriminate Hrun].
  exists p. split; [reflexivity|].
  exact (proj2 (proj2 (proj2 (analyze_trigger_disabled_until_completion
    initial_page _ p loaded_initial_page Hrun)))).
Defined.

(** ** Results and uploads *)

(** The results surface is revealed without any upload: the trigger is
    activated on the page as loaded and the analysis completes. *)
Lemma results_shown_without_upload :
  ~ (forall p0 evs p,
       loaded p0 -> run evs p0 = Some p -> results_hidden p = false ->
       existsb uploads evs = true).
Proof.
  intros H.
  destruct (run [ClickAnalyze; Elapse 3000; Fire 0] initial_page) as [p|] eqn:Hrun;
    [|vm_compute in Hrun; discriminate Hrun].
  assert (Hv : results_hidden p = false)
    by (vm_compute in Hrun; injection Hrun as <-; reflexivity).
  specialize (H initial_page _ p loaded_initial_page Hrun Hv).
  discriminate H.
Qed.

(** C5, amended. In every execution from the page as loaded, the results
    surface is visible only after the analyze trigger has been activated and
    that analysis has completed; no upload is required. *)
Theorem results_shown_only_after_analysis (p0 : page) (evs : list event) (p : page) :
  loaded p0 -> run evs p0 = Some p -> results_hidden p = false ->
  (1 <= completions evs p0)%nat /\ (1 <= activations evs)%nat.
Proof.
  intros Hl Hrun Hv.
  pose proof (loaded_invariant p0 Hl) as Hinv0.
  assert (Hh : results_hidden p0 = true) by apply Hl.
  pose proof (run_results evs p0 p Hinv0 Hrun Hh Hv) as Hc.
  pose proof (run_balance evs p0 p Hinv0 Hrun) as Hb.
  destruct Hl as (_ & _ & Hd & _). rewrite Hd in Hb.
  split; [exact Hc|]. lia.
Qed.

Lemma results_shown_only_after_analysis_witness :
  loaded initial_page
  /\ exists p,
       run [ClickAnalyze; Elapse 3000; Fire 0] initial_page = Some p
       /\ results_hidden p = false
       /\ (1 <= completions [ClickAnalyze; Elapse 3000; Fire 0] initial_page)%nat
       /\ (1 <= activations [ClickAnalyze; Elapse 3000; Fire 0])%nat.
Proof.
  split; [exact loaded_initial_page|].
  destruct (run [ClickAnalyze; Elapse 3000; Fire 0] initial_page) as [p|] eqn:Hrun;
    [|vm_compute in Hrun; discriminate Hrun].
  assert (Hv : results_hidden p = false)
    by (vm_compute in Hrun; injection Hrun as <-; reflexivity).
  exists p. split; [reflexivity|]. split; [exact Hv|].
  exact (results_shown_only_after_analysis initial_page _ p
           loaded_initial_page Hrun Hv).
Defined.

(** C7. A selection of several files uploads its first file only, and an
    empty selection changes nothing; an upload shows the name of its file
    whatever was shown before.  In every execution from the page as loaded
    the one name on display is that of the first file of the latest
    selection that had a file. *)
Theorem displayed_name_is_latest_selected_file
  (p0 : page) (evs : list event) (p : page) :
  loaded p0 -> run evs p0 = Some p ->
  (forall f others q,
     audioInput_onchange (f :: others) q = handleAudioUpload f q
     /\ innerText file_name (audioInput_onchange (f :: others) q) = name f)
  /\ (forall q, audioInput_onchange [] q = q)
  /\ innerText file_name p
     = match last_upload evs with
       | Some f => name f
       | None => innerText file_name p0
       end.
Proof.
  intros Hl Hrun. split; [|split].
  - intros f others q. split; [reflexivity|]. open_page q. reflexivity.
  - reflexivity.
  - apply run_file_name; [apply loaded_invariant|]; assumption.
Qed.

Lemma displayed_name_is_latest_selected_file_witness :
  loaded initial_page
  /\ exists p,
       run [ChangeFiles [mkFile "a.wav" "audio/wav" "QQ=="; mkFile "b.mp3" "audio/mpeg" "Qg=="];
            ChangeFiles [];
            ChangeFiles [mkFile "c.ogg" "audio/ogg" "Qw=="];
            ClickAnalyze]
         initial_page = Some p
       /\ innerText file_name p = "c.ogg".
Proof.
  split; [exact loaded_initial_page|].
  destruct (run [ChangeFiles [mkFile "a.wav" "audio/wav" "QQ=="; mkFile "b.mp3" "audio/mpeg" "Qg=="];
                 ChangeFiles [];
                 ChangeFiles [mkFile "c.ogg" "audio/ogg" "Qw=="];
                 ClickAnalyze] initial_page) as [p|] eqn:Hrun;
    [|vm_compute in Hrun; discriminate Hrun].
  exists p. split; [reflexivity|].
  exact (proj2 (proj2 (displayed_name_is_latest_selected_file
    initial_page _ p loaded_initial_page Hrun))).
Defined.

(** ** Classification *)

(** C6. The label and its colour depend on the classification flag alone:
    one fixed pair for a synthetic voice, the other for a human one, whatever
    the rest of the response and of the page. *)
Theorem classification_label_follows_flag (r : response) (p : page) :
  (innerText classification_label (displayResults_of r p),
   label_color (displayResults_of r p))
  = (if isAI r
     then ("AI-GENERATED VOICE", "#fb7185")
     else ("HUMAN VOICE DETECTED", "#34d399"))
  /\ (innerText classification_label (displayResults_of r p),
      label_color (displayResults_of r p))
     = (label_of (isAI r), color_of (isAI r))
  /\ (label_of true, color_of true) <> (label_of false, color_of false).
Proof.
  split; [|split; [|discriminate]].
  - destruct r as [l s [] d]; open_page p; reflexivity.
  - destruct r as [l s [] d]; open_page p; reflexivity.
Qed.

(** ** The encoded audio *)

Lemma split_no_comma (s : string) : no_comma s = true -> split "," s = [s].
Proof.
  induction s as [|c s IH]; [reflexivity|]. cbn. intros H.
  apply andb_true_iff in H as [Hc Hs].
  destruct (Ascii.eqb c ","); [discriminate|]. now rewrite (IH Hs).
Qed.

Lemma split_first_comma (before after : string) :
  no_comma before = true ->
  split "," (before ++ String "," after) = before :: split "," after.
Proof.
  induction before as [|c s IH]; [reflexivity|]. cbn. intros H.
  apply andb_true_iff in H as [Hc Hs].
  destruct (Ascii.eqb c ","); [discriminate|]. now rewrite (IH Hs).
Qed.

Lemma no_comma_app (a b : string) :
  no_comma (a ++ b) = no_comma a && no_comma b.
Proof.
  induction a as [|c a IH]; [reflexivity|]. cbn. now rewrite IH, andb_assoc.
Qed.

Lemma append_assoc (a b c : string) : (a ++ b) ++ c = a ++ b ++ c.
Proof. induction a as [|x a IH]; [reflexivity|]. cbn. now rewrite IH. Qed.

Lemma append_length (a b : string) :
  String.length (a ++ b) = (String.length a + String.length b)%nat.
Proof. induction a as [|x a IH]; [reflexivity|]. cbn. now rewrite IH. Qed.

(** C9. When the reader of a file ends with its data URL, the slot holds what
    follows the first comma, the base64 payload, and not the data URL; it holds
    the second piece of the result split at commas whatever the result. *)
Theorem reader_stores_base64_payload (f : file) (p : page) :
  no_comma (type f) = true -> no_comma (base64 f) = true ->
  audioBase64 (reader_onloadend (Some (data_url f)) p) = Some (base64 f)
  /\ audioBase64 (reader_onloadend (Some (data_url f)) p) <> Some (data_url f)
  /\ (forall url, audioBase64 (reader_onloadend (Some url) p)
                  = nth_error (split "," url) 1)
  /\ (forall n p', step p (LoadEnd n (Some (data_url f))) = Some p' ->
        audioBase64 p' = Some (base64 f)).
Proof.
  intros Ht Hb.
  assert (Hsplit : split "," (data_url f) = ["data:" ++ type f ++ ";base64"; base64 f]).
  { unfold data_url.
    replace ("data:" ++ type f ++ ";base64," ++ base64 f)
      with (("data:" ++ type f ++ ";base64") ++ String "," (base64 f))
      by (now rewrite !append_assoc).
    rewrite split_first_comma, split_no_comma; auto.
    rewrite !no_comma_app, Ht. reflexivity. }
  assert (Hall : forall url q, audioBase64 (reader_onloadend (Some url) q)
                               = nth_error (split "," url) 1)
    by (intros url q; open_page q; reflexivity).
  split; [|split; [|split]].
  - now rewrite Hall, Hsplit.
  - rewrite Hall, Hsplit. cbn [nth_error]. intros [= E].
    apply (f_equal String.length) in E. unfold data_url in E.
    rewrite !append_length in E. cbn [String.length] in E. lia.
  - intros url. apply Hall.
  - intros n p'. cbn [step].
    destruct (nth_error (readers p) n); [|discriminate].
    intros H.
    replace p' with (reader_onloadend (Some (data_url f))
                       (set_readers (remove_nth n (readers p)) p))
      by congruence.
    now rewrite Hall, Hsplit.
Qed.

Lemma reader_stores_base64_payload_witness :
  no_comma "audio/wav" = true /\ no_comma "UklGRiQAAABXQVZF" = true
  /\ audioBase64
       (reader_onloadend
          (Some "data:audio/wav;base64,UklGRiQAAABXQVZF") initial_page)
     = Some "UklGRiQAAABXQVZF".
Proof.
  split; [reflexivity|]. split; [reflexivity|].
  exact (proj1 (reader_stores_base64_payload
                  (mkFile "sample.wav" "audio/wav" "UklGRiQAAABXQVZF")
                  initial_page eq_refl eq_refl)).
Defined.

(** ** Upload: what is done at once and what is deferred *)

Lemma nth_error_snoc {A : Type} (l : list A) (x : A) :
  nth_error (l ++ [x]) (List.length l) = Some x.
Proof. induction l as [|y l IH]; [reflexivity|exact IH]. Qed.

Lemma remove_nth_snoc {A : Type} (l : list A) (x : A) :
  remove_nth (List.length l) (l ++ [x]) = l.
Proof. induction l as [|y l IH]; [reflexivity|]. cbn. now rewrite IH. Qed.

Lemma handleAudioUpload_frame (f : file) (p : page) :
  playback_hidden (handleAudioUpload f p) = false
  /\ innerText file_name (handleAudioUpload f p) = name f
  /\ scrolled (handleAudioUpload f p) = (scrolled p ++ [playback_container])%list
  /\ audioBase64 (handleAudioUpload f p) = audioBase64 p
  /\ readers (handleAudioUpload f p) = (readers p ++ [f])%list
  /\ loading (handleAudioUpload f p) = (loading p ++ [f])%list
  /\ ready (handleAudioUpload f p) = ready p.
Proof. open_page p. cbn. auto 10. Qed.

Lemma LoadEnd_effect (p : page) (n : nat) (f : file) (url : string) :
  nth_error (readers p) n = Some f ->
  exists q, step p (LoadEnd n (Some url)) = Some q
            /\ audioBase64 q = nth_error (split "," url) 1
            /\ readers q = remove_nth n (readers p)
            /\ loading q = loading p /\ ready q = ready p.
Proof.
  intros H. cbn [step]. rewrite H. eexists. split; [reflexivity|].
  open_page p. cbn. auto.
Qed.

Lemma Decoded_effect (p : page) (n : nat) (f : file) :
  nth_error (loading p) n = Some f ->
  exists q, step p (Decoded n) = Some q
            /\ audioBase64 q = audioBase64 p
            /\ readers q = readers p
            /\ loading q = remove_nth n (loading p)
            /\ ready q = (ready p ++ [f])%list.
Proof.
  intros H. cbn [step]. rewrite H. eexists. split; [reflexivity|].
  open_page p. cbn. auto.
Qed.

(** C8. When [handleAudioUpload] returns, the playback surface is revealed,
    the file name is shown and the scroll into view is requested, while the
    encoded-audio slot is as it was: the read and the waveform load are
    pending.  The slot is written when the reader ends, and that may happen
    before or after the renderer is ready: both orders are executions. *)
Theorem handleAudioUpload_now_and_later (f : file) (p : page) :
  let p' := handleAudioUpload f p in
  let read := LoadEnd (List.length (readers p)) (Some (data_url f)) in
  let decoded := Decoded (List.length (loading p)) in
  playback_hidden p' = false
  /\ innerText file_name p' = name f
  /\ scrolled p' = (scrolled p ++ [playback_container])%list
  /\ audioBase64 p' = audioBase64 p
  /\ readers p' = (readers p ++ [f])%list
  /\ loading p' = (loading p ++ [f])%list
  /\ ready p' = ready p
  /\ (exists q1 q2,
        step p' read = Some q1 /\ step q1 decoded = Some q2
        /\ audioBase64 q1 = nth_error (split "," (data_url f)) 1
        /\ ready q1 = ready p
        /\ ready q2 = (ready p ++ [f])%list)
  /\ (exists q1 q2,
        step p' decoded = Some q1 /\ step q1 read = Some q2
        /\ ready q1 = (ready p ++ [f])%list
        /\ audioBase64 q1 = audioBase64 p
        /\ audioBase64 q2 = nth_error (split "," (data_url f)) 1).
Proof.
  intros p' read decoded.
  destruct (handleAudioUpload_frame f p) as (H1 & H2 & H3 & H4 & H5 & H6 & H7).
  fold p' in H1, H2, H3, H4, H5, H6, H7.
  assert (Hr : nth_error (readers p') (List.length (readers p)) = Some f)
    by (rewrite H5; apply nth_error_snoc).
  assert (Hw : nth_error (loading p') (List.length (loading p)) = Some f)
    by (rewrite H6; apply nth_error_snoc).
  repeat (split; [assumption|]). split.
  - destruct (LoadEnd_effect p' _ f (data_url f) Hr)
      as (q1 & Hs1 & Ha1 & _ & Hl1 & Hy1).
    rewrite <- Hl1 in Hw.
    destruct (Decoded_effect q1 _ f Hw) as (q2 & Hs2 & _ & _ & _ & Hy2).
    exists q1, q2. rewrite Hy2, Hy1, H7. auto.
  - destruct (Decoded_effect p' _ f Hw) as (q1 & Hs1 & Ha1 & Hr1 & _ & Hy1).
    rewrite <- Hr1 in Hr.
    destruct (LoadEnd_effect q1 _ f (data_url f) Hr) as (q2 & Hs2 & Ha2 & _).
    exists q1, q2. rewrite Hy1, Ha1, H7, H4. auto.
Qed.

(** ** The whole flow *)

(** C1. From the page as loaded, upload a file, activate the analysis and let
    the timers run on schedule until none is pending: the delay of 3000ms
    passes first; at the end the results surface is visible, the label and
    colour are those of a synthetic voice (the flag of the mock response is
    true), the badge is built from the language Telugu, the score display
    reads 97.8, and the explanation element holds the whole report line, which
    ends with the whole explanation of the mock response; the trigger is
    enabled again under its default label. *)
Theorem analysis_flow_presents_mock_result (p0 : page) (f : file) :
  loaded p0 ->
  exists rest p,
    schedule 1000 (analyzeBtn_onclick (handleAudioUpload f p0))
    = Elapse 3000 :: Fire 0 :: rest
    /\ run (ChangeFiles [f] :: ClickAnalyze :: Elapse 3000 :: Fire 0 :: rest) p0
       = Some p
    /\ timers p = []
    /\ results_hidden p = false
    /\ isAI mockResponse = true
    /\ innerText classification_label p = "AI-GENERATED VOICE"
    /\ label_color p = "#fb7185"
    /\ innerText language_badge p = lang mockResponse ++ " Detected"
    /\ lang mockResponse = "Telugu"
    /\ innerText score_value p = "97.8"
    /\ innerText explanation_text p = "> [SYSTEM_REPORT]: " ++ details mockResponse
    /\ analyze_disabled p = false
    /\ innerText analyze_btn p = "Verify Authenticity"
    /\ playback_hidden p = false
    /\ innerText file_name p = name f.
Proof.
  intros Hl. open_page p0. destruct f as [nm ty b64].
  destruct Hl as (H1 & H2 & H3 & H4 & H5 & H6 & H7 & H8 & H9 & H10).
  cbn in H1, H2, H3, H4, H5, H6, H7, H8, H9, H10. subst.
  destruct (schedule 1000 _) as [|e1 [|e2 rest]] eqn:Hs;
    [vm_compute in Hs; discriminate Hs | vm_compute in Hs; discriminate Hs |].
  vm_compute in Hs. injection Hs as <- <- <-.
  eexists. eexists. split; [reflexivity|].
  split; [vm_compute; reflexivity|].
  vm_compute. repeat split.
Qed.

(** The scenario of the specification, with the file sample.wav. *)
Lemma analysis_flow_presents_mock_result_witness :
  loaded initial_page
  /\ exists rest p,
       run (ChangeFiles [mkFile "sample.wav" "audio/wav" "UklGRiQAAABXQVZF"]
              :: ClickAnalyze :: Elapse 3000 :: Fire 0 :: rest) initial_page
       = Some p
       /\ results_hidden p = false
       /\ innerText score_value p = "97.8"
       /\ innerText file_name p = "sample.wav".
Proof.
  split; [exact loaded_initial_page|].
  destruct (analysis_flow_presents_mock_result initial_page
              (mkFile "sample.wav" "audio/wav" "UklGRiQAAABXQVZF")
              loaded_initial_page)
    as (rest & p & _ & Hrun & _ & Hv & _ & _ & _ & _ & _ & Hs & _ & _ & _ & _ & Hn).
  exists rest, p. repeat split; assumption.
Defined.

(** * Further properties of the script *)

(** ** Surfaces, playback and verdict along an execution *)

Lemma run_task_surface (j : task) (p : page) :
  task_ok j ->
  playback_hidden (run_task j p) = playback_hidden p
  /\ playing (run_task j p) = playing p
  /\ innerText play_btn (run_task j p) = innerText play_btn p
  /\ innerText analyze_btn (run_task j p)
     = match j with
       | AnalysisDone _ => "Verify Authenticity"
       | _ => innerText analyze_btn p
       end
  /\ match j with
     | AnalysisDone _ => verdict_shown (run_task j p)
     | _ => innerText classification_label (run_task j p)
            = innerText classification_label p
            /\ label_color (run_task j p) = label_color p
            /\ innerText language_badge (run_task j p) = innerText language_badge p
     end.
Proof.
  intros Hok. open_page p.
  destruct j as [n|element target c|element txt i]; cbn in Hok; subst.
  - cbn. repeat split.
  - unfold run_task, interval_callback.
    destruct (Qle_bool target (plus_half c)); cbn; repeat split.
  - unfold run_task, typeWriter, typeWriter_call.
    destruct (Nat.eqb i 0); destruct (Nat.ltb i (String.length txt)); cbn;
      repeat split.
Qed.

Lemma set_timers_surface (ts : list timer) (p : page) :
  playback_hidden (set_timers ts p) = playback_hidden p
  /\ playing (set_timers ts p) = playing p
  /\ dom_text (set_timers ts p) = dom_text p
  /\ label_color (set_timers ts p) = label_color p.
Proof. destruct p; cbn; auto. Qed.

(** What one turn of the event loop changes of the surfaces, the player and
    the verdict. *)
Lemma step_surface (p : page) (e : event) (p' : page) :
  invariant p -> step p e = Some p' ->
  playback_hidden p' = (if uploads e then false else playback_hidden p)
  /\ playing p' = xorb (toggles e) (playing p)
  /\ innerText play_btn p'
     = (if toggles e
        then (if negb (playing p) then pause_html else play_html)
        else innerText play_btn p)
  /\ innerText analyze_btn p'
     = (if activates e then busy_html
        else if completes p e then "Verify Authenticity"
        else innerText analyze_btn p)
  /\ (completes p e = true -> verdict_shown p')
  /\ (verdict_shown p -> verdict_shown p').
Proof.
  intros Hinv Hstep.
  destruct e as [files| | | |ms|n|n result|n]; cbn [step] in Hstep.
  - injection Hstep as <-.
    destruct files as [|f others]; open_page p; unfold verdict_shown; cbn;
      intuition (try discriminate; auto).
  - injection Hstep as <-. cbn. intuition (try discriminate; auto).
  - injection Hstep as <-. open_page p. unfold verdict_shown.
    destruct playing0; cbn; intuition (try discriminate; auto).
  - destruct (analyze_disabled p); [discriminate|]. injection Hstep as <-.
    open_page p. unfold verdict_shown. cbn. intuition (try discriminate; auto).
  - injection Hstep as <-. open_page p. unfold verdict_shown. cbn.
    intuition (try discriminate; auto).
  - destruct (nth_error (timers p) n) as [t|] eqn:Hn; [|discriminate].
    destruct (Nat.eqb (remaining t) 0); [|discriminate].
    injection Hstep as <-.
    assert (Ht : task_ok (job t))
      by exact (nth_error_Forall _ _ _ _ (proj1 Hinv) Hn).
    destruct (run_task_surface (job t) (set_timers (remove_nth n (timers p)) p) Ht)
      as (H1 & H2 & H3 & H5 & H4).
    destruct (set_timers_surface (remove_nth n (timers p)) p)
      as (E1 & E2 & E3 & E4).
    unfold innerText in *. rewrite E3 in *. rewrite E1 in H1. rewrite E2 in H2.
    rewrite (completes_Fire p n t Hn). unfold is_analysis.
    cbn [uploads toggles activates xorb].
    split; [exact H1|]. split; [exact H2|]. split; [exact H3|].
    split; [rewrite H5; now destruct (job t)|].
    destruct (job t) as [node| |]; split; try discriminate; auto;
      unfold verdict_shown, innerText in *; rewrite E4 in H4;
      destruct H4 as (-> & -> & ->); auto.
  - destruct (nth_error (readers p) n) as [f|]; [|discriminate].
    injection Hstep as <-.
    destruct result; open_page p; unfold verdict_shown; cbn;
      intuition (try discriminate; auto).
  - destruct (nth_error (loading p) n) as [f|]; [|discriminate].
    injection Hstep as <-. open_page p. unfold verdict_shown. cbn.
    intuition (try discriminate; auto).
Qed.

Lemma run_surfaces (evs : list event) (p p' : page) :
  invariant p -> run evs p = Some p' ->
  playback_hidden p' = (if existsb uploads evs then false else playback_hidden p)
  /\ results_hidden p'
     = (if Nat.eqb (completions evs p) 0 then results_hidden p else false).
Proof.
  revert p. induction evs as [|e evs IH]; intros p Hinv Hrun; cbn in Hrun.
  - now injection Hrun as <-.
  - destruct (step p e) as [p1|] eqn:Hs; [|discriminate].
    pose proof (step_effect p e p1 Hinv Hs) as (Hinv1 & _ & _ & Hr & _).
    destruct (step_surface p e p1 Hinv Hs) as (Hb & _).
    destruct (IH p1 Hinv1 Hrun) as [IHb IHr].
    cbn [existsb completions]. rewrite Hs, IHb, IHr, Hb, Hr.
    destruct (uploads e), (existsb uploads evs), (completes p e),
      (completions evs p1); cbn; auto.
Qed.

(** X2. In every execution from the page as loaded, the playback surface is
    visible exactly when some selection had a file, and the results surface
    exactly when some analysis has completed; no later event hides either of
    them again: a new upload or a new analysis leaves the earlier results on
    display. *)
Theorem surfaces_once_shown_stay_shown (p0 : page) (evs : list event) (p : page) :
  loaded p0 -> run evs p0 = Some p ->
  playback_hidden p = negb (existsb uploads evs)
  /\ results_hidden p = Nat.eqb (completions evs p0) 0
  /\ (forall more p', run more p = Some p' ->
        (playback_hidden p = false -> playback_hidden p' = false)
        /\ (results_hidden p = false -> results_hidden p' = false)).
Proof.
  intros Hl Hrun.
  pose proof (loaded_invariant p0 Hl) as Hinv0.
  destruct (run_surfaces evs p0 p Hinv0 Hrun) as [Hb Hr].
  destruct Hl as (Hb0 & Hr0 & _). rewrite Hb0 in Hb. rewrite Hr0 in Hr.
  split; [now rewrite Hb; destruct (existsb uploads evs)|].
  split; [now rewrite Hr; destruct (Nat.eqb (completions evs p0) 0)|].
  intros more p' Hm.
  destruct (run_surfaces more p p' (run_invariant evs p0 p Hinv0 Hrun) Hm)
    as [Hb' Hr'].
  split; intros H.
  - rewrite Hb', H. now destruct (existsb uploads more).
  - rewrite Hr', H. now destruct (Nat.eqb (completions more p) 0).
Qed.

Lemma surfaces_once_shown_stay_shown_witness :
  loaded initial_page
  /\ exists p,
       run [ClickAnalyze; Elapse 3000; Fire 0; ClickAnalyze] initial_page = Some p
       /\ playback_hidden p = true
       /\ results_hidden p = false.
Proof.
  split; [exact loaded_initial_page|].
  destruct (run [ClickAnalyze; Elapse 3000; Fire 0; ClickAnalyze] initial_page)
    as [p|] eqn:Hrun; [|vm_compute in Hrun; discriminate Hrun].
  exists p. split; [reflexivity|].
  destruct (surfaces_once_shown_stay_shown initial_page _ p
              loaded_initial_page Hrun) as (Hb & Hr & _).
  split; [exact Hb|exact Hr].
Defined.

Lemma run_verdict (evs : list event) (p p' : page) :
  invariant p -> run evs p = Some p' ->
  (results_hidden p = false -> verdict_shown p) ->
  results_hidden p' = false -> verdict_shown p'.
Proof.
  revert p. induction evs as [|e evs IH]; intros p Hinv Hrun Hv; cbn in Hrun.
  - now injection Hrun as <-.
  - destruct (step p e) as [p1|] eqn:Hs; [|discriminate].
    pose proof (step_effect p e p1 Hinv Hs) as (Hinv1 & _ & _ & Hr & _).
    destruct (step_surface p e p1 Hinv Hs) as (_ & _ & _ & _ & Hc & Hk).
    apply (IH p1 Hinv1 Hrun). intros H1.
    destruct (completes p e); [now apply Hc|].
    apply Hk, Hv. now rewrite <- Hr.
Qed.

(** X3. In every execution from the page as loaded, whenever the results
    surface is visible the label reads AI-GENERATED VOICE in colour #fb7185
    and the badge reads Telugu Detected, whichever files were selected and
    whatever their readers returned: the verdict does not depend on the
    audio. *)
Theorem verdict_does_not_depend_on_audio (p0 : page) (evs : list event) (p : page) :
  loaded p0 -> run evs p0 = Some p -> results_hidden p = false ->
  innerText classification_label p = "AI-GENERATED VOICE"
  /\ label_color p = "#fb7185"
  /\ innerText language_badge p = "Telugu Detected".
Proof.
  intros Hl Hrun Hv.
  apply (run_verdict evs p0 p (loaded_invariant p0 Hl) Hrun); [|exact Hv].
  intros H. destruct Hl as (_ & Hr & _). congruence.
Qed.

Lemma verdict_does_not_depend_on_audio_witness :
  loaded initial_page
  /\ exists p,
       run [ChangeFiles [mkFile "speech.mp3" "audio/mpeg" "SUQz"];
            ClickAnalyze; LoadEnd 0 None; Elapse 3000; Fire 0] initial_page
       = Some p
       /\ innerText classification_label p = "AI-GENERATED VOICE".
Proof.
  split; [exact loaded_initial_page|].
  destruct (run [ChangeFiles [mkFile "speech.mp3" "audio/mpeg" "SUQz"];
                 ClickAnalyze; LoadEnd 0 None; Elapse 3000; Fire 0] initial_page)
    as [p|] eqn:Hrun; [|vm_compute in Hrun; discriminate Hrun].
  assert (Hv : results_hidden p = false)
    by (vm_compute in Hrun; injection Hrun as <-; reflexivity).
  exists p. split; [reflexivity|].
  exact (proj1 (verdict_does_not_depend_on_audio initial_page _ p
                  loaded_initial_page Hrun Hv)).
Defined.

(** ** The analysis: overlay, label, delay and progress *)

Lemma run_trigger_label (evs : list event) (p p' : page) (done : bool) :
  invariant p -> run evs p = Some p' ->
  (analyze_disabled p = true -> innerText analyze_btn p = busy_html) ->
  (analyze_disabled p = false -> done = true ->
   innerText analyze_btn p = "Verify Authenticity") ->
  (analyze_disabled p' = true -> innerText analyze_btn p' = busy_html)
  /\ (analyze_disabled p' = false ->
      done || negb (Nat.eqb (completions evs p) 0) = true ->
      innerText analyze_btn p' = "Verify Authenticity").
Proof.
  revert p done. induction evs as [|e evs IH]; intros p done Hinv Hrun Hb Hd;
    cbn in Hrun.
  - injection Hrun as <-. cbn. rewrite orb_false_r. auto.
  - destruct (step p e) as [p1|] eqn:Hs; [|discriminate].
    pose proof (step_effect p e p1 Hinv Hs)
      as (Hinv1 & _ & _ & _ & Hd1 & _ & Ha & Hc).
    destruct (step_surface p e p1 Hinv Hs) as (_ & _ & _ & Hl & _).
    cbn [completions]. rewrite Hs.
    destruct (IH p1 (done || completes p e) Hinv1 Hrun) as [IH1 IH2].
    + intros H. rewrite Hl. destruct (activates e); [reflexivity|].
      destruct (completes p e); [congruence|]. apply Hb. congruence.
    + intros H1 H2. rewrite Hl. destruct (activates e); [congruence|].
      destruct (completes p e); [reflexivity|].
      rewrite orb_false_r in H2. apply Hd; congruence.
    + split; [exact IH1|]. intros H1 H2. apply (IH2 H1).
      destruct done, (completes p e), (completions evs p1); cbn in *; auto.
Qed.

(** X4. In every execution from the page as loaded, the waveform holds one
    scan line while the trigger is disabled and none while it is enabled; the
    trigger shows the busy label whenever it is disabled, and the default
    label whenever it is enabled after some analysis has completed. *)
Theorem scan_line_exactly_while_analyzing (p0 : page) (evs : list event) (p : page) :
  loaded p0 -> run evs p0 = Some p ->
  List.length (scan_lines p) = (if analyze_disabled p then 1 else 0)%nat
  /\ (analyze_disabled p = true -> innerText analyze_btn p = busy_html)
  /\ (analyze_disabled p = false -> (1 <= completions evs p0)%nat ->
      innerText analyze_btn p = "Verify Authenticity").
Proof.
  intros Hl Hrun.
  pose proof (loaded_invariant p0 Hl) as Hinv0.
  destruct (run_invariant evs p0 p Hinv0 Hrun) as (_ & Hlen & Hscan).
  assert (Hd0 : analyze_disabled p0 = false) by apply Hl.
  destruct (run_trigger_label evs p0 p false Hinv0 Hrun) as [H1 H2];
    try congruence.
  split; [|split; [exact H1|]].
  - rewrite Hscan, analysis_nodes_length. unfold pending_analysis in Hlen.
    now rewrite length_map in Hlen.
  - intros Hd Hc. apply (H2 Hd). cbn [orb].
    destruct (completions evs p0); [lia|reflexivity].
Qed.

Lemma scan_line_exactly_while_analyzing_witness :
  loaded initial_page
  /\ exists p,
       run [ClickAnalyze; Elapse 1000; ClickPlay] initial_page = Some p
       /\ List.length (scan_lines p) = 1%nat
       /\ innerText analyze_btn p = busy_html.
Proof.
  split; [exact loaded_initial_page|].
  destruct (run [ClickAnalyze; Elapse 1000; ClickPlay] initial_page)
    as [p|] eqn:Hrun; [|vm_compute in Hrun; discriminate Hrun].
  assert (Hd : analyze_disabled p = true)
    by (vm_compute in Hrun; injection Hrun as <-; reflexivity).
  exists p. split; [reflexivity|].
  destruct (scan_line_exactly_while_analyzing initial_page _ p
              loaded_initial_page Hrun) as (Hs & Hb & _).
  rewrite Hd in Hs. split; [exact Hs|exact (Hb Hd)].
Defined.

Lemma run_delay (evs : list event) (p p' : page) (before : nat) :
  invariant p -> results_hidden p = true ->
  (pending_analysis p = []
   \/ exists r, pending_analysis p = [r] /\ (3000 <= r + before)%nat) ->
  run evs p = Some p' -> results_hidden p' = false ->
  (3000 <= before + elapsed evs)%nat.
Proof.
  revert p before. induction evs as [|e evs IH];
    intros p before Hinv Hh Hp Hrun Hv; cbn in Hrun.
  - injection Hrun as <-. congruence.
  - destruct (step p e) as [p1|] eqn:Hs; [|discriminate].
    pose proof (step_effect p e p1 Hinv Hs)
      as (Hinv1 & _ & _ & Hr & _ & Hp1 & Ha & Hc).
    destruct (completes p e) eqn:Ec.
    + destruct (Hc eq_refl) as (_ & Hin & _).
      destruct Hp as [Hp|(r & Hp & Hle)]; rewrite Hp in Hin; [destruct Hin|].
      destruct Hin as [Hin|[]]. subst r.
      assert (He : (elapsed evs <= elapsed (e :: evs))%nat)
        by (destruct e; cbn; lia).
      lia.
    + rewrite Hh in Hr.
      destruct e as [files| | | |ms|n|n result|n]; cbn [elapsed];
        try (apply (IH p1 before Hinv1 Hr); [rewrite Hp1; exact Hp|assumption|assumption]).
      * specialize (Ha eq_refl).
        destruct Hinv as (_ & Hlen & _). rewrite Ha in Hlen.
        apply length_zero_iff_nil in Hlen. rewrite Hlen in Hp1. cbn in Hp1.
        apply (IH p1 before Hinv1 Hr); [|assumption|assumption].
        right. exists 3000. split; [exact Hp1|lia].
      * assert (H : (3000 <= before + ms + elapsed evs)%nat).
        { apply (IH p1 (before + ms)%nat Hinv1 Hr); [|assumption|assumption].
          destruct Hp as [Hp|(r & Hp & Hle)]; rewrite Hp in Hp1; cbn in Hp1.
          - now left.
          - right. exists (r - ms)%nat. split; [exact Hp1|lia]. }
        lia.
Qed.

(** X5. In every execution from the page as loaded, the results surface is
    not visible before 3000ms have passed: no sequence of clicks, uploads or
    other events reveals a result sooner. *)
Theorem results_wait_for_the_delay (p0 : page) (evs : list event) (p : page) :
  loaded p0 -> run evs p0 = Some p -> results_hidden p = false ->
  (3000 <= elapsed evs)%nat.
Proof.
  intros Hl Hrun Hv.
  apply (run_delay evs p0 p 0 (loaded_invariant p0 Hl)); try assumption.
  - apply Hl.
  - left. unfold pending_analysis.
    replace (timers p0) with (@nil timer) by (symmetry; apply Hl). reflexivity.
Qed.

Lemma results_wait_for_the_delay_witness :
  loaded initial_page
  /\ exists p,
       run [ClickAnalyze; Elapse 1200; ClickPlay; Elapse 1800; Fire 0]
         initial_page = Some p
       /\ results_hidden p = false
       /\ (3000 <= elapsed [ClickAnalyze; Elapse 1200; ClickPlay; Elapse 1800; Fire 0])%nat.
Proof.
  split; [exact loaded_initial_page|].
  destruct (run [ClickAnalyze; Elapse 1200; ClickPlay; Elapse 1800; Fire 0]
              initial_page) as [p|] eqn:Hrun;
    [|vm_compute in Hrun; discriminate Hrun].
  assert (Hv : results_hidden p = false)
    by (vm_compute in Hrun; injection Hrun as <-; reflexivity).
  exists p. split; [reflexivity|]. split; [exact Hv|].
  exact (results_wait_for_the_delay initial_page _ p loaded_initial_page Hrun Hv).
Defined.

Lemma timers_elapse (ms : nat) (p : page) :
  timers (elapse ms p)
  = map (fun t => mkTimer (remaining t - ms) (job t)) (timers p).
Proof. destruct p; reflexivity. Qed.

(** X6. In every execution from the page as loaded, a disabled trigger has
    exactly one analysis pending, and letting its remaining time pass makes it
    due: it can then run, which re-enables the trigger and shows the results.
    Nothing the user or the collaborators do can leave the trigger disabled
    for good. *)
Theorem pending_analysis_can_complete (p0 : page) (evs : list event) (p : page) :
  loaded p0 -> run evs p0 = Some p -> analyze_disabled p = true ->
  exists r n p1 p2,
    pending_analysis p = [r]
    /\ step p (Elapse r) = Some p1
    /\ step p1 (Fire n) = Some p2
    /\ analyze_disabled p2 = false
    /\ results_hidden p2 = false.
Proof.
  intros Hl Hrun Hd.
  pose proof (run_invariant evs p0 p (loaded_invariant p0 Hl) Hrun) as Hinv.
  pose proof Hinv as (_ & Hlen & _). rewrite Hd in Hlen.
  unfold pending_analysis in Hlen. rewrite length_map in Hlen.
  destruct (filter is_analysis (timers p)) as [|t [|t' rest]] eqn:Hf;
    try discriminate.
  assert (Hin : In t (filter is_analysis (timers p))) by (rewrite Hf; now left).
  apply filter_In in Hin as [Hin Ha].
  destruct (In_nth_error _ _ Hin) as [n Hn].
  assert (Hs1 : step p (Elapse (remaining t)) = Some (elapse (remaining t) p))
    by reflexivity.
  pose proof (step_effect p _ _ Hinv Hs1) as (Hinv1 & _).
  assert (Hn1 : nth_error (timers (elapse (remaining t) p)) n
                = Some (mkTimer (remaining t - remaining t) (job t))).
  { rewrite timers_elapse.
    exact (map_nth_error
             (fun t0 => mkTimer (remaining t0 - remaining t) (job t0)) _ _ Hn). }
  assert (Hs2 : exists p2, step (elapse (remaining t) p) (Fire n) = Some p2).
  { cbn [step]. rewrite Hn1. cbn [remaining]. rewrite Nat.sub_diag. cbn. eauto. }
  destruct Hs2 as [p2 Hs2].
  pose proof (step_effect _ _ _ Hinv1 Hs2) as (_ & _ & _ & Hr & Hd2 & _).
  rewrite (completes_Fire _ n _ Hn1) in Hr, Hd2.
  unfold is_analysis in Hr, Hd2, Ha. cbn [job activates] in Hr, Hd2.
  destruct (job t); try discriminate.
  exists (remaining t), n, (elapse (remaining t) p), p2.
  unfold pending_analysis. rewrite Hf. cbn [map].
  repeat split; auto.
Qed.

Lemma pending_analysis_can_complete_witness :
  loaded initial_page
  /\ exists p,
       run [ClickAnalyze; Elapse 500; ChangeFiles []] initial_page = Some p
       /\ exists r n p1 p2,
            pending_analysis p = [r]
            /\ step p (Elapse r) = Some p1
            /\ step p1 (Fire n) = Some p2
            /\ analyze_disabled p2 = false.
Proof.
  split; [exact loaded_initial_page|].
  destruct (run [ClickAnalyze; Elapse 500; ChangeFiles []] initial_page)
    as [p|] eqn:Hrun; [|vm_compute in Hrun; discriminate Hrun].
  assert (Hd : analyze_disabled p = true)
    by (vm_compute in Hrun; injection Hrun as <-; reflexivity).
  exists p. split; [reflexivity|].
  destruct (pending_analysis_can_complete initial_page _ p
              loaded_initial_page Hrun Hd)
    as (r & n & p1 & p2 & H1 & H2 & H3 & H4 & _).
  exists r, n, p1, p2. repeat split; assumption.
Defined.

(** ** The encoded-audio slot *)

Lemma split_head (s : string) :
  exists piece pieces,
    split "," s = piece :: pieces
    /\ no_comma piece = true
    /\ ((pieces = [] /\ s = piece)
        \/ exists rest, s = piece ++ String "," rest /\ pieces = split "," rest).
Proof.
  induction s as [|c s (piece & pieces & Hs & Hn & Hc)].
  - exists "", []. repeat split. now left.
  - cbn [split]. destruct (Ascii.eqb c ",") eqn:E.
    + apply Ascii.eqb_eq in E. subst c.
      exists "", (split "," s). repeat split. right. now exists s.
    + rewrite Hs. exists (String c piece), pieces. cbn [no_comma]. rewrite E, Hn.
      repeat split. destruct Hc as [[-> ->]|(rest & -> & ->)].
      * now left.
      * right. now exists rest.
Qed.

Lemma reader_slot (url : string) (p : page) :
  audioBase64 (reader_onloadend (Some url) p) = nth_error (split "," url) 1.
Proof. open_page p. reflexivity. Qed.

(** X7. Whatever string the reader ends with, the slot becomes undefined
    exactly when the string holds no comma, and otherwise holds the text
    between the first comma and the next one (or the end): a comma-free piece
    of the result, never the part before the first comma.  A failed read
    (a null result) leaves the slot as it was. *)
Theorem reader_slot_for_any_result (url : string) (p : page) :
  match audioBase64 (reader_onloadend (Some url) p) with
  | None => no_comma url = true
  | Some s =>
      no_comma s = true
      /\ exists before rest,
           no_comma before = true
           /\ url = before ++ String "," (s ++ rest)
           /\ (rest = "" \/ exists r, rest = String "," r)
  end
  /\ audioBase64 (reader_onloadend None p) = audioBase64 p.
Proof.
  split; [|reflexivity]. rewrite reader_slot.
  destruct (split_head url) as (before & pieces & Hs & Hn & Hc). rewrite Hs.
  destruct Hc as [[-> ->]|(rest & -> & ->)]; [exact Hn|].
  destruct (split_head rest) as (s & pieces & Hs2 & Hn2 & Hc2). rewrite Hs2.
  cbn [nth_error]. split; [exact Hn2|].
  destruct Hc2 as [[_ ->]|(r & -> & _)].
  - exists before, "". repeat split; auto.
    f_equal. f_equal. clear. induction s as [|c s IH]; [reflexivity|].
    cbn. now rewrite <- IH.
  - exists before, (String "," r). repeat split; eauto.
Qed.

Lemma split_data_url (f : file) :
  no_comma (type f) = true -> no_comma (base64 f) = true ->
  split "," (data_url f) = ["data:" ++ type f ++ ";base64"; base64 f].
Proof.
  intros Ht Hb. unfold data_url.
  replace ("data:" ++ type f ++ ";base64," ++ base64 f)
    with (("data:" ++ type f ++ ";base64") ++ String "," (base64 f))
    by (now rewrite !append_assoc).
  rewrite split_first_comma, split_no_comma; auto.
  rewrite !no_comma_app, Ht. reflexivity.
Qed.

Lemma LoadEnd_dom_text (p q : page) (n : nat) (result : option string) :
  step p (LoadEnd n result) = Some q -> dom_text q = dom_text p.
Proof.
  cbn [step]. destruct (nth_error (readers p) n); [|discriminate].
  intros [= <-]. destruct result; destruct p; reflexivity.
Qed.

Lemma run_cons (e : event) (evs : list event) (p : page) :
  run (e :: evs) p
  = match step p e with
    | Some p' => run evs p'
    | None => None
    end.
Proof. reflexivity. Qed.

(** X8. Two uploads in a row with no read pending before: if the reader of the
    second file ends first and the reader of the first file ends last, the
    page shows the name of the second file while the slot holds the payload of
    the first.  The slot follows the reader that ended last, not the file
    selected last. *)
Theorem slot_follows_last_reader (p : page) (f1 f2 : file) :
  readers p = [] -> no_comma (type f1) = true -> no_comma (base64 f1) = true ->
  exists q,
    run [ChangeFiles [f1]; ChangeFiles [f2];
         LoadEnd 1 (Some (data_url f2)); LoadEnd 0 (Some (data_url f1))] p
    = Some q
    /\ innerText file_name q = name f2
    /\ audioBase64 q = Some (base64 f1)
    /\ readers q = [].
Proof.
  intros Hr Ht Hb.
  set (p1 := handleAudioUpload f1 p). set (p2 := handleAudioUpload f2 p1).
  destruct (handleAudioUpload_frame f1 p) as (_ & _ & _ & _ & Hr1 & _).
  destruct (handleAudioUpload_frame f2 p1) as (_ & Hn2 & _ & _ & Hr2 & _).
  fold p1 in Hr1. fold p2 in Hr2, Hn2. rewrite Hr in Hr1. cbn in Hr1.
  rewrite Hr1 in Hr2. cbn in Hr2.
  assert (H2 : nth_error (readers p2) 1 = Some f2) by now rewrite Hr2.
  destruct (LoadEnd_effect p2 1 f2 (data_url f2) H2) as (q1 & Hs1 & _ & Hq1 & _).
  rewrite Hr2 in Hq1. cbn in Hq1.
  assert (H1 : nth_error (readers q1) 0 = Some f1) by now rewrite Hq1.
  destruct (LoadEnd_effect q1 0 f1 (data_url f1) H1) as (q2 & Hs2 & Ha & Hq2 & _).
  rewrite Hq1 in Hq2. cbn in Hq2.
  exists q2. split; [|split; [|split]].
  - rewrite run_cons. change (step p (ChangeFiles [f1])) with (Some p1).
    cbv iota beta. rewrite run_cons.
    change (step p1 (ChangeFiles [f2])) with (Some p2).
    cbv iota beta. rewrite run_cons, Hs1, run_cons, Hs2. reflexivity.
  - unfold innerText in *.
    now rewrite (LoadEnd_dom_text _ _ _ _ Hs2), (LoadEnd_dom_text _ _ _ _ Hs1).
  - now rewrite Ha, (split_data_url f1 Ht Hb).
  - exact Hq2.
Qed.

Lemma slot_follows_last_reader_witness :
  readers initial_page = []
  /\ no_comma "audio/wav" = true /\ no_comma "AAAA" = true
  /\ exists q,
       run [ChangeFiles [mkFile "old.wav" "audio/wav" "AAAA"];
            ChangeFiles [mkFile "new.wav" "audio/wav" "BBBB"];
            LoadEnd 1 (Some "data:audio/wav;base64,BBBB");
            LoadEnd 0 (Some "data:audio/wav;base64,AAAA")] initial_page
       = Some q
       /\ innerText file_name q = "new.wav"
       /\ audioBase64 q = Some "AAAA".
Proof.
  split; [reflexivity|]. split; [reflexivity|]. split; [reflexivity|].
  destruct (slot_follows_last_reader initial_page
              (mkFile "old.wav" "audio/wav" "AAAA")
              (mkFile "new.wav" "audio/wav" "BBBB") eq_refl eq_refl eq_refl)
    as (q & Hrun & Hn & Ha & _).
  exists q. repeat split; assumption.
Defined.

(** ** Restarting the typewriter *)

(** X9. Starting the typewriter on an element does not cancel a chain already
    running on it: the new call clears the element and shows its first
    character, and when the pending step of the earlier chain runs it appends
    its own next character to the new text and re-arms itself, so that both
    chains stay pending and their characters interleave. *)
Theorem typeWriter_restart_interleaves
  (element : elem) (txt1 txt2 : string) (i : nat) (p : page) :
  (0 < i < String.length txt1)%nat -> (0 < String.length txt2)%nat ->
  innerText element (typeWriter element txt2 0 p) = charAt txt2 0
  /\ innerText element (typeWriter element txt1 i (typeWriter element txt2 0 p))
     = charAt txt2 0 ++ charAt txt1 i
  /\ timers (typeWriter element txt1 i (typeWriter element txt2 0 p))
     = (timers p ++ [mkTimer 20 (TypeStep element txt2 1);
                     mkTimer 20 (TypeStep element txt1 (i + 1))])%list.
Proof.
  intros Hi H2.
  destruct (typeWriter_page element txt2 0 p) as [Ht Hm].
  destruct (typeWriter_page element txt1 i (typeWriter element txt2 0 p))
    as [Ht' Hm'].
  assert (E2 : forall html, typeWriter_call txt2 0 html = (charAt txt2 0, Some 1)).
  { intros html. unfold typeWriter_call. cbn [Nat.eqb].
    destruct (Nat.ltb_spec 0 (String.length txt2)); [reflexivity|lia]. }
  assert (E1 : forall html,
             typeWriter_call txt1 i html = (html ++ charAt txt1 i, Some (i + 1))).
  { intros html. unfold typeWriter_call.
    destruct (Nat.eqb_spec i 0); [lia|].
    destruct (Nat.ltb_spec i (String.length txt1)); [reflexivity|lia]. }
  rewrite E2 in Ht, Hm. rewrite E1 in Ht', Hm'. cbn [fst snd] in *.
  split; [exact Ht|]. split.
  - now rewrite Ht', Ht.
  - now rewrite Hm', Hm, <- app_assoc.
Qed.

Lemma typeWriter_restart_interleaves_witness :
  (0 < 2 < String.length "first")%nat /\ (0 < String.length "second")%nat
  /\ innerText explanation_text
       (typeWriter explanation_text "first" 2
          (typeWriter explanation_text "second" 0 initial_page))
     = "sr".
Proof.
  assert (H1 : (0 < 2 < String.length "first")%nat) by (cbn; lia).
  assert (H2 : (0 < String.length "second")%nat) by (cbn; lia).
  split; [exact H1|]. split; [exact H2|].
  exact (proj1 (proj2 (typeWriter_restart_interleaves
                         explanation_text "first" "second" 2 initial_page H1 H2))).
Defined.

(** X10. From the page as loaded, activate the analysis and activate it again
    as soon as the first one completes, then let the timers run on schedule
    until none is pending: the second result starts while the first
    explanation is still being typed, and the explanation element ends with
    202 characters that are not the report line, while the score still ends at
    97.8. *)
Theorem reactivation_garbles_explanation (p0 : page) :
  loaded p0 ->
  exists p,
    run (retrigger_events p0) p0 = Some p
    /\ timers p = []
    /\ results_hidden p = false
    /\ analyze_disabled p = false
    /\ innerText score_value p = "97.8"
    /\ String.length (innerText explanation_text p) = 202%nat
    /\ String.length ("> [SYSTEM_REPORT]: " ++ details mockResponse) = 176%nat
    /\ innerText explanation_text p <> "> [SYSTEM_REPORT]: " ++ details mockResponse.
Proof.
  intros Hl. open_page p0.
  destruct Hl as (H1 & H2 & H3 & H4 & H5 & H6 & H7 & H8 & H9 & H10).
  cbn in H1, H2, H3, H4, H5, H6, H7, H8, H9, H10. subst.
  eexists. split; [vm_compute; reflexivity|].
  repeat (split; [vm_compute; reflexivity|]).
  intros H. vm_compute in H. discriminate H.
Qed.

Lemma reactivation_garbles_explanation_witness :
  loaded initial_page
  /\ exists p,
       run (retrigger_events initial_page) initial_page = Some p
       /\ timers p = []
       /\ String.length (innerText explanation_text p) = 202%nat.
Proof.
  split; [exact loaded_initial_page|].
  destruct (reactivation_garbles_explanation initial_page loaded_initial_page)
    as (p & Hrun & Ht & _ & _ & _ & Hlen & _).
  exists p. repeat split; assumption.
Defined.

(** ** The count-up outside the usual scores *)

Lemma plus_half_saturates (k : Z) :
  (0 <= k <= 2 ^ 53)%Z ->
  plus_half (Qred (k # 2)) = Qred (Z.min (k + 1) (2 ^ 53) # 2).
Proof.
  change (2 ^ 53)%Z with 9007199254740992%Z. intros Hk. unfold plus_half.
  destruct (Qle_bool exact_limit (Qred (k # 2))) eqn:E.
  - apply Qle_bool_iff in E. rewrite Qred_correct in E.
    unfold exact_limit, Qle in E. cbn in E.
    replace (Z.min (k + 1) 9007199254740992) with k by lia. reflexivity.
  - assert (Hlt : (k < 9007199254740992)%Z).
    { destruct (Z.lt_ge_cases k 9007199254740992) as [H|H]; [exact H|].
      assert (Hle : Qle_bool exact_limit (Qred (k # 2)) = true).
      { apply Qle_bool_iff. rewrite Qred_correct.
        unfold exact_limit, Qle. cbn. lia. }
      congruence. }
    replace (Z.min (k + 1) 9007199254740992) with (k + 1)%Z by lia.
    apply Qred_complete. rewrite Qred_correct. unfold Qeq. cbn. lia.
Qed.

(** X11. For a target above 2^52 the count-up never stops: the accumulator
    climbs by 0.5 up to 2^52, where adding 0.5 no longer changes it, and stays
    there below the target, so the interval is never cleared and the target is
    never shown. *)
Theorem count_up_never_stops_above_exact_range
  (target : Q) (shown : string) (n : nat) :
  (exact_limit < target)%Q ->
  cleared (after_ticks target n (animation_start shown)) = false
  /\ count (after_ticks target n (animation_start shown))
     = Qred (Z.min (Z.of_nat n) (2 ^ 53) # 2)
  /\ (count (after_ticks target n (animation_start shown)) <= exact_limit)%Q
  /\ content (after_ticks target n (animation_start shown)) <> JNum target.
Proof.
  intros Ht.
  assert (Hbound : forall k, (0 <= k)%Z ->
            (Qred (Z.min k (2 ^ 53) # 2) <= exact_limit)%Q).
  { intros k Hk. rewrite Qred_correct. unfold exact_limit, Qle. cbn.
    change (2 ^ 53)%Z with 9007199254740992%Z. lia. }
  assert (H : after_ticks target n (animation_start shown)
              = {| count := Qred (Z.min (Z.of_nat n) (2 ^ 53) # 2);
                   content := if Nat.eqb n 0 then JStr shown
                              else JStr (toFixed1
                                     (Qred (Z.min (Z.of_nat n) (2 ^ 53) # 2)));
                   cleared := false |}).
  { induction n as [|n IH]; [reflexivity|].
    cbn [after_ticks]. rewrite IH. cbn [cleared Nat.eqb].
    unfold tick, interval_callback. cbn [count content].
    rewrite plus_half_saturates
      by (change (2 ^ 53)%Z with 9007199254740992%Z; lia).
    replace (Z.min (Z.min (Z.of_nat n) (2 ^ 53) + 1) (2 ^ 53))
      with (Z.min (Z.of_nat (S n)) (2 ^ 53))
      by (change (2 ^ 53)%Z with 9007199254740992%Z; lia).
    destruct (Qle_bool target (Qred (Z.min (Z.of_nat (S n)) (2 ^ 53) # 2))) eqn:E;
      [|reflexivity].
    apply Qle_bool_iff in E. exfalso.
    apply (Qlt_not_le _ _ Ht). eapply Qle_trans; [exact E|].
    apply Hbound. lia. }
  rewrite H. cbn [count content cleared].
  split; [reflexivity|]. split; [reflexivity|].
  split; [apply Hbound; lia|]. now destruct (Nat.eqb n 0).
Qed.

Lemma count_up_never_stops_above_exact_range_witness :
  (exact_limit < inject_Z (2 ^ 53))%Q
  /\ cleared (after_ticks (inject_Z (2 ^ 53)) 1000 (animation_start "0")) = false.
Proof.
  assert (Hl : (exact_limit < inject_Z (2 ^ 53))%Q) by reflexivity.
  split; [exact Hl|].
  exact (proj1 (count_up_never_stops_above_exact_range
                  (inject_Z (2 ^ 53)) "0" 1000 Hl)).
Defined.

(** X12. For a target of at most 0.5 (a zero or negative score among them)
    the count-up takes one tick: the accumulator reaches 0.5, the target
    itself is put on display and the interval is cleared. *)
Theorem small_target_stops_on_first_tick (target : Q) (shown : string) :
  (target <= 0.5)%Q ->
  after_ticks target 1 (animation_start shown)
  = {| count := (1 # 2)%Q; content := JNum target; cleared := true |}
  /\ forall n, (1 <= n)%nat ->
       after_ticks target n (animation_start shown)
       = after_ticks target 1 (animation_start shown).
Proof.
  intros Ht.
  assert (H : after_ticks target 1 (animation_start shown)
              = {| count := (1 # 2)%Q; content := JNum target; cleared := true |}).
  { cbn [after_ticks animation_start cleared]. unfold tick, interval_callback.
    change (plus_half (count (animation_start shown))) with (1 # 2)%Q.
    assert (E : Qle_bool target (1 # 2)%Q = true)
      by (apply Qle_bool_iff; eapply Qle_trans; [exact Ht|]; unfold Qle; cbn; lia).
    now rewrite E. }
  split; [exact H|]. intros n Hn.
  apply after_ticks_cleared; [now rewrite H|exact Hn].
Qed.

Lemma small_target_stops_on_first_tick_witness :
  (0 <= 0.5)%Q
  /\ after_ticks 0%Q 1 (animation_start "12.5")
     = {| count := (1 # 2)%Q; content := JNum 0%Q; cleared := true |}.
Proof.
  assert (H : (0 <= 0.5)%Q) by (unfold Qle; cbn; lia).
  split; [exact H|].
  exact (proj1 (small_target_stops_on_first_tick 0%Q "12.5" H)).
Defined.

Lemma append_empty (s : string) : s ++ "" = s.
Proof. induction s as [|c s IH]; [reflexivity|]. cbn. now rewrite IH. Qed.

Lemma whole_number_exact (n : Z) :
  (1 <= n <= 2 ^ 52)%Z -> (inject_Z n <= exact_limit)%Q.
Proof. intros H. unfold exact_limit, Qle. cbn [Qnum Qden inject_Z]. lia. Qed.

Lemma whole_number_stop_tick (n : Z) :
  (1 <= n)%Z -> stop_tick (inject_Z n) = Z.to_nat (2 * n).
Proof.
  intros Hn. unfold stop_tick.
  assert (E : Qceiling (inject_Z n / 0.5) = (2 * n)%Z).
  { transitivity (Qceiling (inject_Z (2 * n))); [|apply Qceiling_Z].
    apply Qceiling_comp. rewrite div_half.
    unfold Qeq, Qmult, inject_Z. cbn [Qnum Qden]. lia. }
  rewrite E. f_equal. lia.
Qed.

Lemma whole_number_halves (n : Z) :
  (0 <= n)%Z -> halves (Z.to_nat (2 * n)) = inject_Z n.
Proof.
  intros Hn. unfold halves.
  rewrite <- (Qcanon.Qred_identity (inject_Z n)) by (cbn; apply Z.gcd_1_r).
  apply Qred_complete. unfold Qeq, inject_Z. cbn [Qnum Qden]. lia.
Qed.

(** X13. For a whole-number target n (from 1 up to 2^52) the count-up takes
    2n ticks; the tick before the last shows n-1 with the decimal .5, and the
    last one shows n without any decimal, not the n.0 that the one-decimal
    format of the earlier ticks would give. *)
Theorem whole_number_target_ends_without_decimal (n : Z) (shown : string) :
  (1 <= n <= 2 ^ 52)%Z ->
  stop_tick (inject_Z n) = Z.to_nat (2 * n)
  /\ js_to_string
       (content (after_ticks (inject_Z n) (Z.to_nat (2 * n) - 1)
                   (animation_start shown)))
     = N_digits (Z.to_N (n - 1)) ++ ".5"
  /\ js_to_string
       (content (after_ticks (inject_Z n) (Z.to_nat (2 * n))
                   (animation_start shown)))
     = N_digits (Z.to_N n)
  /\ toFixed1 (inject_Z n) = N_digits (Z.to_N n) ++ ".0".
Proof.
  intros Hn.
  pose proof (whole_number_exact n Hn) as Hl.
  pose proof (whole_number_stop_tick n ltac:(lia)) as Hs.
  split; [exact Hs|]. split; [|split].
  - pose proof (after_ticks_running (inject_Z n) shown Hl
                  (Z.to_nat (2 * n) - 1) ltac:(lia)) as H.
    cbv zeta beta in H. rewrite H. cbn [content].
    destruct (Nat.eqb_spec (Z.to_nat (2 * n) - 1) 0) as [E|_]; [lia|].
    cbn [js_to_string]. rewrite toFixed1_halves.
    replace (Z.of_nat (Z.to_nat (2 * n) - 1)) with (1 + (n - 1) * 2)%Z by lia.
    rewrite Z.div_add, Z.mod_add by lia. reflexivity.
  - pose proof (after_ticks_stop (inject_Z n) shown Hl) as H.
    cbv zeta beta in H. rewrite Hs in H. rewrite H. cbn [content js_to_string].
    unfold number_to_string, inject_Z. cbn [Qnum Qden].
    destruct (Z.ltb_spec n 0); [lia|].
    rewrite Z.abs_eq, Z.div_1_r, Z.mod_1_r by lia. cbn [Z.eqb append].
    apply append_empty.
  - rewrite <- (whole_number_halves n) by lia. rewrite toFixed1_halves.
    rewrite Z2Nat.id by lia.
    replace (2 * n)%Z with (0 + n * 2)%Z by lia.
    rewrite Z.div_add, Z.mod_add by lia. reflexivity.
Qed.

Lemma whole_number_target_ends_without_decimal_witness :
  (1 <= 50 <= 2 ^ 52)%Z
  /\ stop_tick 50 = 100%nat
  /\ js_to_string (content (after_ticks 50 99 (animation_start "0"))) = "49.5"
  /\ js_to_string (content (after_ticks 50 100 (animation_start "0"))) = "50".
Proof.
  assert (H : (1 <= 50 <= 2 ^ 52)%Z) by (split; [lia|discriminate]).
  split; [exact H|].
  destruct (whole_number_target_ends_without_decimal 50 "0" H)
    as (H1 & H2 & H3 & _).
  split; [exact H1|]. split; [exact H2|exact H3].
Defined.
